(** * Luum: capture sequencing, file ranking and settings synchronisation

    A shallow embedding of the client logic of the two front ends of the
    repository:

    - [web-simple/src/App.tsx]: the timed multi-shot capture run, the
      flattening of the remote file hierarchy and the "latest captures"
      ranking;
    - [web/luum/src/App.tsx]: the settings list, its favourite-first ordering,
      the per-type controls and the update callback.

    Asynchronous functions are sequential programs (every effect is awaited),
    so they are embedded in a small monad that threads the number of HTTP
    requests issued so far, accumulates the trace of effects in program order
    and propagates thrown errors.  JS numbers that are integral in the data
    model (ids, types, mtimes, flags) are [Z]; timer values, on which the code
    divides, are exact rationals [Q]; the double-precision evaluation of the
    progress expression is given separately ([progress_f64]). *)

From Stdlib Require Import List String Ascii ZArith QArith Qfield Qround Lia Bool Arith.
From Stdlib Require Import Permutation Sorted.
From Stdlib Require Import Floats.
Import ListNotations.
#[local] Open Scope nat_scope.

Set Implicit Arguments.
#[local] Set Warnings "-register-all".

(* ================================================================= *)
(** ** Data model *)

(** [interface Camera] (both front ends). *)
Record Camera := mkCamera {
  cam_name : string;
  cam_port : string;
  cam_summary : string
}.

(** [interface File] of web-simple. *)
Record File := mkFile {
  file_name : string;
  height : Z;
  mtime : Z;
  permissions : Z;
  size : Z;
  mimetype : string;
  width : Z
}.

(** [File | Folder], the tagged union on the [type] field. *)
Inductive node :=
| FileNode (f : File)
| FolderNode (name : string) (children : list node).

(** [interface Folder]: the root of a fetched hierarchy. *)
Record Folder := mkFolder {
  folder_name : string;
  folder_children : list node
}.

(** [value: any] of a setting; the update callback receives
    [string | number]. *)
Inductive value :=
| VStr (s : string)
| VNum (q : Q).

(** [interface Setting] of web/luum. *)
Record Setting := mkSetting {
  changed : Z;
  id : Z;
  info : string;
  label : string;
  name : string;
  path : string;
  readonly : Z;
  type : Z;
  val : value;
  choices : option (list string)
}.

(** JS truthiness of a number: everything but zero. *)
Definition truthy (n : Z) : bool := negb (n =? 0)%Z.

(** JS truthiness of a string: everything but the empty string. *)
Definition truthy_str (s : string) : bool :=
  match s with EmptyString => false | _ => true end.

(* ================================================================= *)
(** ** lodash and Array helpers *)

Module Lodash.

Section SortBy.
Context {A K : Type}.
Variable leb : K -> K -> bool.
Variable key : A -> K.

(** Insertion that keeps [x] ahead of the later elements with an equal
    key. *)
Fixpoint insert (x : A) (l : list A) : list A :=
  match l with
  | [] => [x]
  | y :: l' => if leb (key x) (key y) then x :: l else y :: insert x l'
  end.

(** [_.sortBy(collection, iteratee)]: the stable ascending sort by the
    iteratee's value (lodash orders by the criteria and then by the
    original index). *)
Definition sortBy (l : list A) : list A := fold_right insert [] l.
End SortBy.

(** Ascending comparison of a pair of criteria, as [sortBy] does for a list
    of two iteratees: the first decides, the second breaks its ties. *)
Definition lex_leb (a b : Z * Z) : bool :=
  ((fst a <? fst b) || ((fst a =? fst b) && (snd a <=? snd b)))%Z.

Section Index.
Context {A : Type}.
Variable p : A -> bool.

(** Index of the first element satisfying [p], counting from [i]; -1 when
    there is none. *)
Fixpoint findIndex_from (i : Z) (l : list A) : Z :=
  match l with
  | [] => (-1)%Z
  | x :: l' => if p x then i else findIndex_from (i + 1)%Z l'
  end.

(** [_.findIndex(array, predicate)]. *)
Definition findIndex (l : list A) : Z := findIndex_from 0%Z l.
End Index.

(** [Array.prototype.indexOf] on an array of strings. *)
Definition indexOf (l : list string) (x : string) : Z :=
  findIndex (String.eqb x) l.

(** [Array.prototype.includes] on an array of strings. *)
Definition includes (l : list string) (x : string) : bool :=
  existsb (String.eqb x) l.

End Lodash.

(* ================================================================= *)
(** ** Effects: HTTP requests, timers, state setters *)

Inductive method := GET | PUT.

(** What [axios.get(url, {params})] and [axios.put(url, body)] send. *)
Record request := mkRequest {
  req_method : method;
  req_url : string;
  req_params : list (string * string);
  req_body : option (string * Setting)
}.

(** Response payloads the code consumes. *)
Inductive payload :=
| NoData
| SettingsData (l : list Setting)
| FolderData (f : Folder)
| CamerasData (l : list Camera).

(** Outcome of one request on the wire: a response with its status, or no
    response at all (connection failure). *)
Inductive response :=
| HttpResponse (status : Z) (data : payload)
| NetworkError.

(** Rejections the code can observe: an axios error, with the status of the
    response when there is one, and the [TypeError] of a property read on
    [undefined]. *)
Inductive error :=
| AxiosError (req : request) (status : option Z)
| TypeError.

Inductive event :=
| Send (r : request)
| Recv (r : response)
| Sleep (ms : Q)
| SetCountdownProgress (v : Q)
| SetCountdownTotal (v : Q)
| SetTriggerFileUpdate
| SetCameraFiles (d : payload)
| SetLoading (b : bool)
| SetTriggerRefresh
| SetSettings (d : payload)
| ConsoleLog (msg : string)
| ConsoleError (e : error).

Inductive result (A : Type) :=
| Ok (a : A)
| Throw (e : error).
Arguments Ok {A} a.
Arguments Throw {A} e.

(** An asynchronous computation: from the number of requests issued so far to
    its outcome, the effects it performed in order, and the new number of
    requests. *)
Definition M (A : Type) : Type := nat -> result A * list event * nat.

Definition ret {A} (a : A) : M A := fun n => (Ok a, [], n).

Definition bind {A B} (m : M A) (f : A -> M B) : M B := fun n =>
  match m n with
  | (Ok a, t, n') =>
      match f a n' with
      | (r, t', n'') => (r, t ++ t', n'')
      end
  | (Throw e, t, n') => (Throw e, t, n')
  end.

Definition throw {A} (e : error) : M A := fun n => (Throw e, [], n).

(** [try { m } catch (e) { h e }]. *)
Definition try_catch {A} (m : M A) (h : error -> M A) : M A := fun n =>
  match m n with
  | (Ok a, t, n') => (Ok a, t, n')
  | (Throw e, t, n') =>
      match h e n' with
      | (r, t', n'') => (r, t ++ t', n'')
      end
  end.

Definition emit (e : event) : M unit := fun n => (Ok tt, [e], n).

Notation "x <- m ;; k" := (bind m (fun x => k))
  (at level 61, m at next level, right associativity).
Notation "m ;; k" := (bind m (fun _ => k))
  (at level 61, right associativity).

(** [for (let i = i0; i < i0 + count; i++) body(i)], every iteration
    awaited. *)
Fixpoint for_loop (count : nat) (i : nat) (body : nat -> M unit) : M unit :=
  match count with
  | O => ret tt
  | S c => body i ;; for_loop c (S i) body
  end.

(** [const sleep = ms => new Promise(resolve => setTimeout(resolve, ms))]. *)
Definition sleep (ms : Q) : M unit := emit (Sleep ms).

(** [p.catch(console.error)]. *)
Definition catch_console (m : M unit) : M unit :=
  try_catch m (fun e => emit (ConsoleError e)).

Definition outcome {A} (x : result A * list event * nat) : result A := fst (fst x).
Definition trace {A} (x : result A * list event * nat) : list event := snd (fst x).
Definition issued {A} (x : result A * list event * nat) : nat := snd x.

(* ================================================================= *)
(** ** axios and axios-retry *)

Module Axios.

(** axios resolves on a 2xx status (its default [validateStatus]). *)
Definition validateStatus (st : Z) : bool := ((200 <=? st) && (st <? 300))%Z.

(** [retries]: how many times a failed request is sent again;
    [retryCondition]: which failures qualify. *)
Record RetryConfig := mkRetry {
  retries : nat;
  retryCondition : request -> option Z -> bool
}.

(** Modelled from the spec: axios-retry is a dependency, not under src/.  The
    call [axiosRetry(axios, {retries: 3})] passes no condition of its own, so
    the library's default applies: section 5 and 7 of the spec describe it as
    retrying a "transient transport failure"; the library's documented default
    is a failure without response, or a 5xx response to an idempotent method
    (GET and PUT among them). *)
Definition isNetworkOrIdempotentRequestError (req : request) (status : option Z) : bool :=
  match status with
  | None => true
  | Some st =>
      ((500 <=? st) && (st <=? 599))%Z &&
      match req_method req with GET | PUT => true end
  end.

Section Backend.
(** The backend: its answer to the k-th request it receives. *)
Variable backend : nat -> response.

(** One request on the wire. *)
Definition attempt (req : request) : M payload := fun n =>
  match backend n with
  | HttpResponse st d =>
      if validateStatus st
      then (Ok d, [Send req; Recv (backend n)], S n)
      else (Throw (AxiosError req (Some st)), [Send req; Recv (backend n)], S n)
  | NetworkError =>
      (Throw (AxiosError req None), [Send req; Recv (backend n)], S n)
  end.

(** A request through an instance on which [axiosRetry] was installed:
    a failure that meets the condition is sent again while retries are
    left. *)
Fixpoint retrying (cfg : RetryConfig) (left : nat) (req : request) : M payload :=
  fun n =>
    match attempt req n with
    | (Ok d, t, n') => (Ok d, t, n')
    | (Throw e, t, n') =>
        match left, e with
        | S k, AxiosError _ st =>
            if retryCondition cfg req st
            then match retrying cfg k req n' with
                 | (r, t', n'') => (r, t ++ t', n'')
                 end
            else (Throw e, t, n')
        | _, _ => (Throw e, t, n')
        end
    end.

(** A request through the module's axios instance. *)
Definition request_with (retry : option RetryConfig) (req : request) : M payload :=
  match retry with
  | None => attempt req
  | Some cfg => retrying cfg (retries cfg) req
  end.

Definition get (retry : option RetryConfig) (url : string)
           (params : list (string * string)) : M payload :=
  request_with retry (mkRequest GET url params None).

Definition put (retry : option RetryConfig) (url : string)
           (body : string * Setting) : M payload :=
  request_with retry (mkRequest PUT url [] (Some body)).
End Backend.

End Axios.

(* ================================================================= *)
(** ** web-simple/src/App.tsx *)

Module WebSimple.

(** [axiosRetry(axios, {retries: 3})]: installed on the one axios instance
    every request of this front end goes through. *)
Definition axios_retry : option Axios.RetryConfig :=
  Some (Axios.mkRetry 3 Axios.isNetworkOrIdempotentRequestError).

(** The timing constants at the top of the file. *)
Record Config := mkConfig {
  PHOTO_TIME_INITIAL : Q;
  PHOTO_TIME_SUBSEQUENT : Q;
  PHOTO_POST_WAIT : Q;
  SPINNER_GRANULARITY : nat;
  NUM_PHOTOS : nat
}.

(** Their values in the source. *)
Definition source_config : Config :=
  mkConfig 5000 3000 0 10 3.

(** A natural number as a JS number. *)
Definition num (n : nat) : Q := inject_Z (Z.of_nat n).

(** [cameras?.[0]?.port], with its truthiness: the port of the first camera
    when the list is loaded, has a first element and that port is not the
    empty string. *)
Definition first_port (cameras : option (list Camera)) : option string :=
  match cameras with
  | Some (c :: _) => if truthy_str (cam_port c) then Some (cam_port c) else None
  | _ => None
  end.

Definition capture_request (port : string) : request :=
  mkRequest GET "/api/capture/image" [("port"%string, port)] None.

Section Run.
Variable backend : nat -> response.
Variable cfg : Config.
Variable cameras : option (list Camera).

(** [captureImage] *)
Definition captureImage : M unit :=
  match first_port cameras with
  | None => ret tt
  | Some port =>
      Axios.get backend axios_retry "/api/capture/image" [("port"%string, port)] ;;
      ret tt
  end.

(** The body of the effect "Trigger camera photo run". *)
Definition asyncEffect (triggerPhoto : nat) : M unit :=
  if Nat.eqb triggerPhoto 0 then ret tt else
  emit (SetCountdownProgress 0) ;;
  emit (SetCountdownTotal (PHOTO_TIME_INITIAL cfg)) ;;
  for_loop (SPINNER_GRANULARITY cfg) 0 (fun i =>
    sleep (PHOTO_TIME_INITIAL cfg / num (SPINNER_GRANULARITY cfg)) ;;
    let progress :=
      (PHOTO_TIME_INITIAL cfg * ((num i + 1) / num (SPINNER_GRANULARITY cfg)))%Q in
    emit (SetCountdownProgress progress)) ;;
  captureImage ;;
  sleep (1000 + PHOTO_POST_WAIT cfg) ;;
  for_loop (NUM_PHOTOS cfg - 1) 0 (fun _ =>
    emit (SetCountdownProgress 0) ;;
    emit (SetCountdownTotal (PHOTO_TIME_SUBSEQUENT cfg)) ;;
    for_loop (SPINNER_GRANULARITY cfg) 0 (fun i =>
      sleep (PHOTO_TIME_SUBSEQUENT cfg / num (SPINNER_GRANULARITY cfg)) ;;
      let progress :=
        (PHOTO_TIME_SUBSEQUENT cfg * ((num i + 1) / num (SPINNER_GRANULARITY cfg)))%Q in
      emit (SetCountdownProgress progress)) ;;
    captureImage ;;
    sleep (1000 + PHOTO_POST_WAIT cfg)) ;;
  emit (SetCountdownProgress 0) ;;
  emit (SetCountdownTotal 0) ;;
  sleep 3000 ;;
  emit SetTriggerFileUpdate.

(** The effect itself: [asyncEffect().catch(console.error)], started with
    no request issued yet. *)
Definition photo_run (triggerPhoto : nat) : result unit * list event * nat :=
  catch_console (asyncEffect triggerPhoto) 0%nat.
End Run.

(** The schedule of section 4.2 of the spec with the capture steps left
    out, written from the spec's words and compared with the code's run below.
    A countdown phase of total [D]: the reset of the progress, the total, and
    [G] ticks, each a sleep of [D / G] followed by the progress update. *)
Definition countdown_phase (cfg : Config) (D : Q) : list event :=
  SetCountdownProgress 0 :: SetCountdownTotal D ::
  flat_map (fun i => [Sleep (D / num (SPINNER_GRANULARITY cfg));
                      SetCountdownProgress
                        (D * ((num i + 1) / num (SPINNER_GRANULARITY cfg)))])
           (seq 0 (SPINNER_GRANULARITY cfg)).

(** The initial phase and its wait, [NUM_PHOTOS - 1] subsequent phases each
    with its wait, and the terminal cooldown with the signal to the file
    poller. *)
Definition idle_schedule (cfg : Config) : list event :=
  countdown_phase cfg (PHOTO_TIME_INITIAL cfg) ++
  [Sleep (1000 + PHOTO_POST_WAIT cfg)] ++
  List.concat (repeat (countdown_phase cfg (PHOTO_TIME_SUBSEQUENT cfg) ++
                       [Sleep (1000 + PHOTO_POST_WAIT cfg)])
                      (NUM_PHOTOS cfg - 1)) ++
  [SetCountdownProgress 0; SetCountdownTotal 0; Sleep 3000; SetTriggerFileUpdate].

(** The progress expression [D * ((i + 1) / G)] in IEEE 754 double
    precision, the arithmetic of a JS number. *)
Definition progress_f64 (D G : float) (i : nat) : float :=
  PrimFloat.mul D
    (PrimFloat.div
       (PrimFloat.add (PrimFloat.of_uint63 (Uint63.of_Z (Z.of_nat i))) 1%float) G).

(** [recurseFiles] *)
Fixpoint recurseFiles (obj : node) (path : string) : list (string * File) :=
  match obj with
  | FileNode f =>
      if String.eqb (mimetype f) "image/jpeg" then [(path, f)] else []
  | FolderNode name children =>
      flat_map (fun c => recurseFiles c (path ++ "/" ++ name)%string) children
  end.



(** The pairs [latestFiles] ranks, in traversal order: the argument it hands
    to [sortBy], and nothing before the hierarchy is fetched. *)
Definition flattened (cameraFiles : option Folder) : list (string * File) :=
  match cameraFiles with
  | Some root => flat_map (fun c => recurseFiles c "") (folder_children root)
  | None => []
  end.

(** Where a file sits below a node: the names of the folders from that node
    down to the one that holds the file. *)
Inductive located : node -> list string -> File -> Prop :=
| located_here f : located (FileNode f) [] f
| located_below name children c names f :
    In c children -> located c names f ->
    located (FolderNode name children) (name :: names) f.

(** The path a chain of folder names spells: "/" and the name, for each. *)
Fixpoint path_of (names : list string) : string :=
  match names with
  | [] => ""
  | n :: names' => "/" ++ n ++ path_of names'
  end.

(** [latestFiles] *)
Definition latestFiles (cameraFiles : option Folder) : list (string * File) :=
  firstn 3
    (rev
       match cameraFiles with
       | Some root =>
           Lodash.sortBy Z.leb (fun pf => mtime (snd pf))
             (flat_map (fun c => recurseFiles c "") (folder_children root))
       | None => []
       end).


Definition folder_of (d : payload) : option Folder :=
  match d with FolderData f => Some f | _ => None end.

(** The effect "Update camera files"; it runs when [triggerFileUpdate] or
    [cameras] changes. *)
Definition updateCameraFiles (backend : nat -> response)
           (cameras : option (list Camera)) : M unit :=
  catch_console
    (emit (ConsoleLog "updating camera files") ;;
     match first_port cameras with
     | None => ret tt
     | Some port =>
         data <- Axios.get backend axios_retry "/api/hierarchy" [("port"%string, port)] ;;
         emit (SetCameraFiles data)
     end).


(** The number in the countdown overlay,
    [Math.max(0, Math.ceil((countdownTotal -
       ((countdownProgress / countdownTotal) * countdownTotal)) / 1000))],
    rendered only when [countdownTotal] is truthy.

    This is the expression on the exact rationals in which the run's timer
    values are modelled.  Dividing by the total and multiplying by it again
    cancel there; in the double precision of a JS number they need not, so
    this definition stands for the code only where they do (at the reset, at a
    progress equal to the total, and at the values the source's constants
    produce).  The expression as the code evaluates it is
    [countdown_label_f64] below. *)
Definition countdown_label (countdownTotal countdownProgress : Q) : option Z :=
  if Qeq_bool countdownTotal 0 then None
  else Some (Z.max 0
               (Qceiling ((countdownTotal
                           - ((countdownProgress / countdownTotal) * countdownTotal))
                          / 1000))).

(** What the overlay's text can be: a whole number, [NaN] or
    [Infinity]. *)
Inductive shown :=
| Number (n : Z)
| NotANumber
| Infinite.

(** JS truthiness of a double: everything but 0, -0 and NaN. *)
Definition truthy_f64 (x : float) : bool :=
  match Prim2SF x with
  | S754_zero _ | S754_nan => false
  | _ => true
  end.

(** [Math.max(0, Math.ceil(x))] on a double: the ceiling of a finite double
    [(-1)^s * m * 2^e] is taken on the integers; [NaN] stays [NaN]. *)
Definition max0_ceil_f64 (x : float) : shown :=
  match Prim2SF x with
  | S754_zero _ => Number 0
  | S754_nan => NotANumber
  | S754_infinity true => Number 0
  | S754_infinity false => Infinite
  | S754_finite s m e =>
      let q := if s then Z.neg m else Z.pos m in
      Number (Z.max 0 (if (0 <=? e)%Z then q * 2 ^ e else - ((- q) / 2 ^ (- e))))
  end.

(** The number in the countdown overlay as the code evaluates it, in IEEE 754
    double precision. *)
Definition countdown_label_f64 (countdownTotal countdownProgress : float) : option shown :=
  if truthy_f64 countdownTotal
  then Some (max0_ceil_f64
               (PrimFloat.div
                  (PrimFloat.sub countdownTotal
                     (PrimFloat.mul (PrimFloat.div countdownProgress countdownTotal)
                                    countdownTotal))
                  1000%float))
  else None.

(** The [src] of a thumbnail, with [API_URL] at its default, the empty
    string. *)
Definition thumbnail_src (port : string) (pf : string * File) : string :=
  ("/api/download/image?port=" ++ port ++ "&path=" ++ (fst pf ++ "/" ++ file_name (snd pf))
   ++ "&quality=20&size=300")%string.

(** The [src] of the live preview, likewise. *)
Definition preview_src (port : string) : string :=
  ("/api/preview.mjpeg?port=" ++ port ++ "&quality=20")%string.

(** What [App] renders: the spinner while the camera list is not loaded, the
    text "No cameras detected" for an empty list, and otherwise the live
    preview (the click target that starts a run, only for a truthy port of
    the first camera), the countdown overlay over it, and the thumbnails of
    the latest files. *)
Inductive screen :=
| Spinner
| NoCamerasDetected
| Main (preview : option string) (overlay : option shown) (thumbnails : list string).

Definition render (cameras : option (list Camera)) (cameraFiles : option Folder)
           (countdownProgress countdownTotal : float) : screen :=
  match cameras with
  | None => Spinner
  | Some [] => NoCamerasDetected
  | Some (c :: _) =>
      Main (if truthy_str (cam_port c) then Some (preview_src (cam_port c)) else None)
           (if truthy_str (cam_port c)
            then countdown_label_f64 countdownTotal countdownProgress
            else None)
           (map (thumbnail_src (cam_port c)) (latestFiles cameraFiles))
  end.

(** [onClick={() => setTriggerPhoto(i => i + 1)}] *)
Definition onClick (triggerPhoto : nat) : nat := triggerPhoto + 1.

End WebSimple.

(* ================================================================= *)
(** ** web/luum/src/App.tsx *)

Module Web.

(** What [renderSetting] returns: the control and its [disabled] prop, or a
    placeholder text. *)
Inductive element :=
| TextField (disabled : bool) (defaultValue : value)
| Checkbox (disabled : bool) (checked : bool)
| Select (disabled : bool) (selected : value) (items : list string)
| DateTimePicker (disabled : bool) (shown : value)
| Typography (text : string).

Definition value_truthy (v : value) : bool :=
  match v with
  | VStr s => truthy_str s
  | VNum q => negb (Qeq_bool q 0)
  end.

(** [renderSetting], the dispatch on [setting.type]. *)
Definition renderSetting (setting : Setting) : option element :=
  match type setting with
  | 0%Z | 1%Z => None
  | 2%Z => Some (TextField (truthy (readonly setting)) (val setting))
  | 3%Z => Some (Typography "TODO: Implement slider")
  | 4%Z => Some (Checkbox (truthy (readonly setting)) (value_truthy (val setting)))
  | 5%Z | 6%Z =>
      Some (Select (truthy (readonly setting)) (val setting)
              (match choices setting with Some l => l | None => [] end))
  | 7%Z => Some (Typography "TODO: Implement button")
  | 8%Z => Some (DateTimePicker (truthy (readonly setting)) (val setting))
  | _ => None
  end.

(** The [disabled] prop of an element that is a control. *)
Definition control_disabled (e : element) : option bool :=
  match e with
  | TextField d _ | Checkbox d _ | Select d _ _ | DateTimePicker d _ => Some d
  | Typography _ => None
  end.

(** [{...setting, ...{value: newVal}}] *)
Definition with_value (s : Setting) (newVal : value) : Setting :=
  mkSetting (changed s) (id s) (info s) (label s) (name s) (path s)
            (readonly s) (type s) newVal (choices s).

Definition settings_request (port : string) : request :=
  mkRequest GET "/api/settings" [("port"%string, port)] None.

Section Component.
Variable backend : nat -> response.
Variable camera : Camera.

(** The effect that fetches the settings; it runs when [props.camera] or
    [triggerRefresh] changes. *)
Definition fetchSettings : M unit :=
  catch_console
    (newSettings <- Axios.get backend None "/api/settings"
                      [("port"%string, cam_port camera)] ;;
     emit (SetSettings newSettings) ;;
     emit (SetLoading false)).

(** The callback handed to [renderSetting] for [setting]. *)
Definition onChange (setting : Setting) (newVal : value) : M unit :=
  if truthy (readonly setting) then ret tt else
  emit (ConsoleLog ("updating " ++ path setting ++ " to")) ;;
  emit (SetLoading true) ;;
  try_catch
    (Axios.put backend None "/api/setting"
               (cam_port camera, with_value setting newVal) ;;
     ret tt)
    (fun e =>
       match e with
       | AxiosError _ (Some status) =>
           if negb (status =? 500)%Z then throw e else ret tt
       | AxiosError _ None => throw TypeError
       | TypeError => throw e
       end) ;;
  emit SetTriggerRefresh.

(** [triggerRefresh] after a list of effects: every [setTriggerRefresh(i =>
    i + 1)] adds one. *)
Definition triggerRefresh_after (t : list event) (before : nat) : nat :=
  before + List.length (filter (fun e => match e with SetTriggerRefresh => true | _ => false end) t).

(** [loading] after a list of effects: the value of the last [setLoading],
    if there is one. *)
Definition loading_after (t : list event) (loading : bool) : bool :=
  fold_left (fun b e => match e with SetLoading b' => b' | _ => b end) t loading.

(** A change of a control, followed by React's re-render: the callback runs,
    and the settings effect runs again when its dependency
    [triggerRefresh] has changed. *)
Definition change_then_render (setting : Setting) (newVal : value)
           (triggerRefresh : nat) : M unit := fun n =>
  match onChange setting newVal n with
  | (r, t, n') =>
      if Nat.eqb (triggerRefresh_after t triggerRefresh) triggerRefresh
      then (r, t, n')
      else match fetchSettings n' with
           | (_, t', n'') => (r, t ++ t', n'')
           end
  end.
End Component.

(** The order in which [SettingsList] maps the settings:
    [sortBy(settings, [s => -favorites.indexOf(s.path),
                       s => findIndex(settings, {id: s.id})])]. *)
Definition sort_key (favorites : list string) (settings : list Setting)
           (s : Setting) : Z * Z :=
  ((- Lodash.indexOf favorites (path s))%Z,
   Lodash.findIndex (fun s' => (id s' =? id s)%Z) settings).

Definition displayed (favorites : list string) (settings : list Setting) : list Setting :=
  Lodash.sortBy Lodash.lex_leb (sort_key favorites settings) settings.

(** [const isFavorite = favorites.includes(setting.path)] *)
Definition isFavorite (favorites : list string) (s : Setting) : bool :=
  Lodash.includes favorites (path s).

(** The star button of a setting:
    [isFavorite ? setFavorites(favorites.filter(s => s !== setting.path))
                : setFavorites([...favorites, setting.path])]. *)
Definition toggleFavorite (favorites : list string) (s : Setting) : list string :=
  if isFavorite favorites s
  then filter (fun p => negb (String.eqb p (path s))) favorites
  else favorites ++ [path s].

(** What the user does to a control. *)
Inductive ui_event :=
| KeyPress (key : string) (text : string)
| Check (checked : bool)
| Choose (choice : string)
| Pick (seconds : option Q).

(** The value with which the control rendered for [setting] calls the update
    callback on an event, if it calls it at all:
    [e.key === "Enter" && onChange(e.target.value)] for the text field,
    [onChange(checked ? 1 : 0)] for the checkbox, [onChange(e.target.value)]
    for the select, [val && onChange(val.toSeconds())] for the date picker. *)
Definition control_change (setting : Setting) (ev : ui_event) : option value :=
  match renderSetting setting, ev with
  | Some (TextField _ _), KeyPress key text =>
      if String.eqb key "Enter" then Some (VStr text) else None
  | Some (Checkbox _ _), Check checked => Some (VNum (if checked then 1 else 0))
  | Some (Select _ _ _), Choose choice => Some (VStr choice)
  | Some (DateTimePicker _ _), Pick (Some seconds) => Some (VNum seconds)
  | _, _ => None
  end.

(** An event on the control of [setting], followed by React's re-render. *)
Definition user_change (backend : nat -> response) (camera : Camera)
           (setting : Setting) (ev : ui_event) (triggerRefresh : nat) : M unit :=
  match control_change setting ev with
  | Some newVal => change_then_render backend camera setting newVal triggerRefresh
  | None => ret tt
  end.

(** [const selectedCamera = cameras[listIdx]] *)
Definition selectedCamera (cameras : list Camera) (listIdx : nat) : option Camera :=
  nth_error cameras listIdx.

(** The values of the menu items of the camera select, present only for a
    non-empty list: the indices of the cameras. *)
Definition menu (cameras : list Camera) : list nat := seq 0 (List.length cameras).

(** The select's handler,
    [e?.target?.value && setListIdx(e.target.value as number)]: the new
    [listIdx] for a chosen value, or for an event without one. *)
Definition onSelect (listIdx : nat) (chosen : option nat) : nat :=
  match chosen with
  | Some (S v) => S v
  | Some O | None => listIdx
  end.

(** The capture button of [CameraPane]. *)
Definition capture_click (backend : nat -> response) (camera : Camera) : M unit :=
  Axios.get backend None "/api/capture/image" [("port"%string, cam_port camera)] ;;
  ret tt.

End Web.

(* ================================================================= *)
(** ** Trace monitors

    Properties of a run are stated on its trace.  A monitor reads the trace
    event by event and stops ([None]) at the first event its property
    forbids. *)

Definition succeeds (r : response) : bool :=
  match r with
  | HttpResponse st _ => Axios.validateStatus st
  | NetworkError => false
  end.

(** The outcomes of a setting update after which the list is fetched
    again: success, and the failure with status 500. *)
Definition tolerated (r : response) : bool :=
  match r with
  | HttpResponse st _ => Axios.validateStatus st || (st =? 500)%Z
  | NetworkError => false
  end.

Definition is_capture (r : request) : bool :=
  match req_method r with GET => String.eqb (req_url r) "/api/capture/image" | PUT => false end.

Definition is_send (e : event) : bool :=
  match e with Send _ => true | _ => false end.

Definition is_capture_send (e : event) : bool :=
  match e with Send r => is_capture r | _ => false end.

Definition is_put_send (e : event) : bool :=
  match e with
  | Send r => match req_method r with PUT => true | GET => false end
  | _ => false
  end.

Definition is_settings_fetch (e : event) : bool :=
  match e with
  | Send r =>
      match req_method r with
      | GET => String.eqb (req_url r) "/api/settings"
      | PUT => false
      end
  | _ => false
  end.

(** Events of the network and of the console, as opposed to those of the
    user interface and of the timers. *)
Definition is_io (e : event) : bool :=
  match e with Send _ | Recv _ | ConsoleError _ | ConsoleLog _ => true | _ => false end.

Definition is_progress (e : event) : bool :=
  match e with SetCountdownProgress _ => true | _ => false end.


(** The progress values set along a trace. *)
Definition progress_values (t : list event) : list Q :=
  flat_map (fun e => match e with SetCountdownProgress v => [v] | _ => [] end) t.

Definition count (p : event -> bool) (t : list event) : nat :=
  List.length (filter p t).

(** The time spent in the sleeps of a trace, in milliseconds. *)
Definition total_sleep (t : list event) : Q :=
  fold_right (fun e acc => match e with Sleep ms => ms + acc | _ => acc end)%Q 0%Q t.

Module Monitor.

Section Run.
Variable St : Type.
Variable step : St -> event -> option St.

Fixpoint run (s : St) (t : list event) : option St :=
  match t with
  | [] => Some s
  | e :: t' =>
      match step s e with
      | Some s' => run s' t'
      | None => None
      end
  end.
End Run.

(** *** The capture sequencer of section 4.2 of the spec

    [Idle k]: between phases, [k] shots taken.  [CountingDown k i]: in a
    countdown, [i] progress updates emitted since it began.  [Capturing k]:
    the capture request is on the wire.  [PostCaptureWait k]: its response
    has arrived and the wait has not elapsed.  [Finished k]: the run
    signalled the file poller. *)
Inductive seq_state :=
| Idle (shots : nat)
| CountingDown (shots : nat) (ticks : nat)
| Capturing (shots : nat)
| PostCaptureWait (shots : nat)
| Finished (shots : nat).

Definition seq_step (G : nat) (port : string) (s : seq_state) (e : event)
  : option seq_state :=
  match s, e with
  | Idle k, SetCountdownProgress v =>
      if Qeq_bool v 0 then Some (Idle k) else None
  | Idle k, SetCountdownTotal _ => Some (CountingDown k 0)
  | CountingDown k i, Sleep _ => Some (CountingDown k i)
  | CountingDown k i, SetCountdownProgress _ => Some (CountingDown k (S i))
  | CountingDown k i, Send r =>
      if is_capture r && Nat.eqb i G &&
         match req_params r with
         | [(_, p)] => String.eqb p port
         | _ => false
         end
      then Some (Capturing k) else None
  | Capturing k, Recv r =>
      if succeeds r then Some (PostCaptureWait (S k)) else None
  | PostCaptureWait k, Sleep _ => Some (Idle k)
  | CountingDown k i, SetTriggerFileUpdate =>
      if Nat.eqb i 0 then Some (Finished k) else None
  | _, _ => None
  end.


(** *** Countdown progress

    [Await]: no countdown has begun.  [Reset]: the progress was just set to
    zero, the total must follow.  [Count D i last]: a countdown of total [D]
    is running, [i] samples were emitted, the latest progress value is
    [last]; its first [G] progress updates are its samples, the next one
    must be the reset that opens the following phase. *)
Inductive cd_state :=
| Await
| Reset
| Count (D : Q) (i : nat) (last : Q).

Definition cd_step (G : nat) (s : cd_state) (e : event) : option cd_state :=
  match s, e with
  | Await, SetCountdownProgress v => if Qeq_bool v 0 then Some Reset else None
  | Await, SetCountdownTotal _ => None
  | Await, _ => Some Await
  | Reset, SetCountdownTotal D => Some (Count D 0 0)
  | Reset, _ => None
  | Count D i last, SetCountdownProgress v =>
      if Nat.ltb i G then
        if Qeq_bool v (D * (WebSimple.num (S i) / WebSimple.num G))
           && Qle_bool last v
           && (if Nat.eqb (S i) G then Qeq_bool v D else true)
        then Some (Count D (S i) v) else None
      else
        if Qeq_bool v 0 then Some Reset else None
  | Count _ _ _, SetCountdownTotal _ => None
  | Count D i last, _ => Some (Count D i last)
  end.

(** A trace may end outside a countdown, after the [G] samples of one, or in
    the zero-length countdown that ends a run. *)
Definition cd_final (G : nat) (s : cd_state) : bool :=
  match s with
  | Await => true
  | Reset => false
  | Count D i _ => Nat.eqb i G || (Nat.eqb i 0 && Qeq_bool D 0)
  end.

Definition cd_accepts (G : nat) (t : list event) : bool :=
  match run (cd_step G) Await t with
  | Some s => cd_final G s
  | None => false
  end.

(** The progress value after [i] updates of a countdown of total [D]. *)
Definition progress_after (D : Q) (G i : nat) : Q :=
  match i with
  | O => 0
  | S j => D * ((WebSimple.num j + 1) / WebSimple.num G)
  end.

(** *** The wait after a capture

    [Landed]: a capture request has just completed.  [Waited]: the wait of
    [w] milliseconds after it has elapsed. *)
Inductive pw_state := Running | Landed | Waited.

Definition pw_step (w : Q) (s : pw_state) (e : event) : option pw_state :=
  match s, e with
  | Running, Recv r => if succeeds r then Some Landed else Some Running
  | Running, _ => Some Running
  | Landed, Sleep q => if Qeq_bool q w then Some Waited else None
  | Landed, _ => None
  | Waited, SetCountdownProgress v => if Qeq_bool v 0 then Some Running else None
  | Waited, _ => None
  end.

Definition pw_accepts (w : Q) (t : list event) : bool :=
  match run (pw_step w) Running t with
  | Some Running => true
  | _ => false
  end.

End Monitor.

(* ================================================================= *)
(** ** What the user interface holds after a trace *)

Module Ui.

(** The state the setters and the console leave behind. *)
Record state := mkState {
  countdownProgress : Q;
  countdownTotal : Q;
  fileUpdates : nat;
  errors : nat
}.

(** [useState(0)] for both countdown values; nothing triggered, nothing
    logged. *)
Definition initial : state := mkState 0 0 0 0.

Definition step (s : state) (e : event) : state :=
  match e with
  | SetCountdownProgress v => mkState v (countdownTotal s) (fileUpdates s) (errors s)
  | SetCountdownTotal v => mkState (countdownProgress s) v (fileUpdates s) (errors s)
  | SetTriggerFileUpdate =>
      mkState (countdownProgress s) (countdownTotal s) (S (fileUpdates s)) (errors s)
  | ConsoleError _ =>
      mkState (countdownProgress s) (countdownTotal s) (fileUpdates s) (S (errors s))
  | _ => s
  end.

Definition after (t : list event) : state := fold_left step t initial.

End Ui.

(** A failure of a request that the retry policy [cfg] sends again. *)
Definition retryable (cfg : Axios.RetryConfig) (req : request) (r : response) : bool :=
  match r with
  | HttpResponse st _ =>
      negb (Axios.validateStatus st) && Axios.retryCondition cfg req (Some st)
  | NetworkError => Axios.retryCondition cfg req None
  end.

(** The policy web-simple installs, and the failures it retries on a GET: a
    connection failure and a 5xx answer. *)
Definition source_policy : Axios.RetryConfig :=
  Axios.mkRetry 3 Axios.isNetworkOrIdempotentRequestError.

Definition transient (r : response) : bool :=
  match r with
  | HttpResponse st _ => ((500 <=? st) && (st <=? 599))%Z
  | NetworkError => true
  end.

Definition hierarchy_request (port : string) : request :=
  mkRequest GET "/api/hierarchy" [("port"%string, port)] None.


Definition is_console_error (e : event) : bool :=
  match e with ConsoleError _ => true | _ => false end.

Definition is_set_files (e : event) : bool :=
  match e with SetCameraFiles _ => true | _ => false end.

(* ================================================================= *)
(** ** Concrete scenarios *)

Module Scenario.

(** A backend that answers every request with 200. *)
Definition always_ok : nat -> response := fun _ => HttpResponse 200 NoData.

(** A backend whose first answer is lost on the way; it answers 200 from
    then on. *)
Definition first_lost : nat -> response :=
  fun k => match k with O => NetworkError | S _ => HttpResponse 200 NoData end.

(** A backend that answers every request with the given status. *)
Definition always_status (st : Z) : nat -> response :=
  fun _ => HttpResponse st NoData.

(** A backend whose first [k] answers are lost; it then answers 200 with the
    given payload. *)
Definition lost_then (k : nat) (d : payload) : nat -> response :=
  fun j => if Nat.ltb j k then NetworkError else HttpResponse 200 d.

Definition camera : Camera := mkCamera "Canon EOS" "usb:001,004" "".

Definition one_camera : option (list Camera) := Some [camera].

Definition file (name : string) (mtime : Z) (mimetype : string) : File :=
  mkFile name 0 mtime 0 0 mimetype 0.


(** An editable text setting with the given id and path. *)
Definition setting (i : Z) (p : string) : Setting :=
  mkSetting 0 i "" p p p 0 2 (VStr "") None.

(** The same setting, read-only. *)
Definition readonly_setting (i : Z) (p : string) : Setting :=
  mkSetting 0 i "" p p p 1 2 (VStr "") None.

Definition iso : Setting := setting 1 "/main/imgsettings/iso".
Definition aperture : Setting := setting 2 "/main/capturesettings/aperture".

(** Two pictures taken in the same second. *)
Definition burst : Folder :=
  mkFolder ""
    [FolderNode "DCIM"
       [FileNode (file "a.jpg" 100 "image/jpeg");
        FileNode (file "b.jpg" 100 "image/jpeg")]].

End Scenario.

(* ================================================================= *)
(** * Reasoning about runs *)

Lemma outcome_trace_issued A (x : result A * list event * nat) :
  x = (outcome x, trace x, issued x).
Proof. destruct x as [[r t] n]; reflexivity. Qed.

Ltac unpack := unfold trace, outcome, issued in *; simpl in *.

Section Triples.
Variable St : Type.
Variable step : St -> event -> option St.

Let run := Monitor.run step.

Lemma run_app (t1 t2 : list event) (s : St) :
  run s (t1 ++ t2) =
  match run s t1 with Some s' => run s' t2 | None => None end.
Proof.
  unfold run; revert s; induction t1 as [|e t1 IH]; intro s; simpl; [reflexivity|].
  destruct (step s e); [apply IH | reflexivity].
Qed.

(** [triple s m s_ok Err]: started in state [s], the monitor reads all of
    the effects of [m]; it ends in [s_ok] when [m] returns and in a state
    of [Err] when [m] throws. *)
Definition triple {A} (s : St) (m : M A) (s_ok : St) (Err : St -> Prop) : Prop :=
  forall n,
    match outcome (m n) with
    | Ok _ => run s (trace (m n)) = Some s_ok
    | Throw _ => exists s', run s (trace (m n)) = Some s' /\ Err s'
    end.

Lemma triple_ret A (a : A) s Err : triple s (ret a) s Err.
Proof. intro n; reflexivity. Qed.

Lemma triple_emit e s s' Err :
  step s e = Some s' -> triple s (emit e) s' Err.
Proof. intros H n; unfold run; unpack; rewrite H; reflexivity. Qed.

Lemma triple_bind A B (m : M A) (f : A -> M B) s s1 s2 Err :
  triple s m s1 Err ->
  (forall a, triple s1 (f a) s2 Err) ->
  triple s (bind m f) s2 Err.
Proof.
  intros Hm Hf n. unfold bind.
  specialize (Hm n). destruct (m n) as [[[a|e] t] n']; unpack.
  - specialize (Hf a n'). destruct (f a n') as [[[b|e] t'] n'']; unpack;
      rewrite run_app, Hm; exact Hf.
  - exact Hm.
Qed.

Lemma triple_for_loop (inv : nat -> St) body Err bound :
  (forall i, i < bound -> triple (inv i) (body i) (inv (S i)) Err) ->
  forall cnt i, cnt + i <= bound ->
    triple (inv i) (for_loop cnt i body) (inv (cnt + i)) Err.
Proof.
  intros Hbody cnt. induction cnt as [|c IH]; intros i Hle; simpl.
  - apply triple_ret.
  - eapply triple_bind; [apply Hbody; lia|]. intros _.
    replace (S (c + i)) with (c + S i) by lia. apply IH; lia.
Qed.

Lemma triple_catch_console (m : M unit) s s_ok (Err : St -> Prop) (Fin : St -> Prop) :
  triple s m s_ok Err ->
  Fin s_ok ->
  (forall s' e, Err s' -> exists s'', step s' (ConsoleError e) = Some s'' /\ Fin s'') ->
  forall n, exists s', run s (trace (catch_console m n)) = Some s' /\ Fin s'.
Proof.
  intros Hm Hok Herr n. unfold catch_console, try_catch.
  specialize (Hm n). destruct (m n) as [[[a|e] t] n']; unpack.
  - eauto.
  - destruct Hm as (s' & Hrun & He).
    destruct (Herr s' e He) as (s'' & Hs & Hend).
    exists s''. rewrite run_app, Hrun. unfold run; simpl. rewrite Hs. auto.
Qed.

(** A request, with or without retries, on a monitor that ignores
    sends and failed responses. *)
Lemma triple_request backend retry req s s_ok (Err : St -> Prop) :
  step s (Send req) = Some s ->
  (forall r, succeeds r = false -> step s (Recv r) = Some s) ->
  (forall r, succeeds r = true -> step s (Recv r) = Some s_ok) ->
  Err s ->
  triple s (Axios.request_with backend retry req) s_ok Err.
Proof.
  intros Hsend Hfail Hok He.
  assert (Hatt : triple s (Axios.attempt backend req) s_ok (eq s)).
  { intro n. unfold Axios.attempt.
    destruct (backend n) as [st d|] eqn:Hb; unfold run; unpack.
    - destruct (Axios.validateStatus st) eqn:Hv; unpack; rewrite Hsend.
      + rewrite Hok; [reflexivity | exact Hv].
      + rewrite Hfail; [eauto | exact Hv].
    - rewrite Hsend, Hfail; eauto. }
  destruct retry as [cfg|]; simpl.
  2:{ intro n. specialize (Hatt n).
      destruct (outcome (Axios.attempt backend req n)); [exact Hatt|].
      destruct Hatt as (s' & Hr & <-). eauto. }
  generalize (Axios.retries cfg) as left.
  induction left as [|k IH]; intro n; simpl;
    pose proof (Hatt n) as Ha;
    destruct (Axios.attempt backend req n) as [[[d|e] t] n']; unpack;
    try exact Ha;
    destruct Ha as (s' & Hr & <-).
  - eauto.
  - destruct e as [r st|]; [|unpack; eauto].
    destruct (Axios.retryCondition cfg req st); [|unpack; eauto].
    specialize (IH n').
    destruct (Axios.retrying backend cfg k req n') as [[[d|e] t'] n'']; unpack;
      rewrite run_app, Hr; exact IH.
Qed.

End Triples.

Ltac emit_step :=
  eapply triple_bind;
  [ unfold sleep; apply triple_emit; simpl; try reflexivity | intros _ ].

Ltac emit_last :=
  unfold sleep; apply triple_emit; simpl; try reflexivity.

(* ================================================================= *)
(** * web-simple: the capture run *)

Module CaptureRun.
Import WebSimple Monitor.

Lemma Qeq_bool_refl (q : Q) : Qeq_bool q q = true.
Proof. apply Qeq_bool_iff. reflexivity. Qed.

(** The capture step on a monitor that ignores sends and failed
    responses. *)
Lemma triple_captureImage St (step : St -> event -> option St)
      backend cameras s s_ok (Err : St -> Prop) :
  (forall r, step s (Send r) = Some s) ->
  (forall r, succeeds r = false -> step s (Recv r) = Some s) ->
  (forall r, succeeds r = true -> step s (Recv r) = Some s_ok) ->
  Err s ->
  triple step s (captureImage backend cameras)
         (match first_port cameras with Some _ => s_ok | None => s end) Err.
Proof.
  intros Hsend Hfail Hok He. unfold captureImage.
  destruct (first_port cameras) as [port|].
  - eapply triple_bind.
    + apply triple_request; eauto.
    + intros _. apply triple_ret.
  - apply triple_ret.
Qed.

Section PostWait.
Variable backend : nat -> response.
Variable cfg : Config.
Variable cameras : option (list Camera).

Lemma pw_countdown D i0 cnt Err :
  triple (pw_step (1000 + PHOTO_POST_WAIT cfg)) Running
    (for_loop cnt i0 (fun i =>
       sleep (D / num (SPINNER_GRANULARITY cfg)) ;;
       emit (SetCountdownProgress (D * ((num i + 1) / num (SPINNER_GRANULARITY cfg))))))
    Running Err.
Proof.
  apply triple_for_loop with (inv := fun _ => Running) (bound := cnt + i0); [|lia].
  intros i _. emit_step. emit_last.
Qed.

Lemma pw_asyncEffect trigger :
  triple (pw_step (1000 + PHOTO_POST_WAIT cfg)) Running
         (asyncEffect backend cfg cameras trigger) Running (eq Running).
Proof.
  unfold asyncEffect. destruct (Nat.eqb trigger 0); [apply triple_ret|].
  emit_step. emit_step.
  eapply triple_bind; [apply pw_countdown | intros _].
  eapply triple_bind.
  { apply triple_captureImage with (s_ok := Landed); simpl; auto.
    - intros r ->; reflexivity.
    - intros r ->; reflexivity. }
  intros _.
  set (waited := match first_port cameras with Some _ => Waited | None => Running end).
  assert (Hreset : pw_step (1000 + PHOTO_POST_WAIT cfg) waited (SetCountdownProgress 0)
                   = Some Running).
  { unfold waited; destruct (first_port cameras); reflexivity. }
  eapply triple_bind with (s1 := waited).
  { unfold sleep, waited. apply triple_emit.
    destruct (first_port cameras); simpl; [|reflexivity].
    rewrite Qeq_bool_refl; reflexivity. }
  intros _.
  eapply triple_bind.
  { apply triple_for_loop
      with (inv := fun _ => waited) (bound := (NUM_PHOTOS cfg - 1) + 0); [|lia].
    intros i _.
    eapply triple_bind; [apply triple_emit; exact Hreset | intros _].
    emit_step.
    eapply triple_bind; [apply pw_countdown | intros _].
    eapply triple_bind.
    { apply triple_captureImage with (s_ok := Landed); simpl; auto.
      - intros r ->; reflexivity.
      - intros r ->; reflexivity. }
    intros _. unfold sleep, waited. apply triple_emit.
    destruct (first_port cameras); simpl; [|reflexivity].
    rewrite Qeq_bool_refl; reflexivity. }
  intros _.
  eapply triple_bind; [apply triple_emit; exact Hreset | intros _].
  emit_step. emit_step. emit_last.
Qed.

Lemma pw_photo_run trigger :
  run (pw_step (1000 + PHOTO_POST_WAIT cfg)) Running
      (trace (photo_run backend cfg cameras trigger)) = Some Running.
Proof.
  assert (Herr : forall (s' : pw_state) (e : error), Running = s' ->
            exists s'', pw_step (1000 + PHOTO_POST_WAIT cfg) s' (ConsoleError e) = Some s''
                        /\ Running = s'').
  { intros s' e <-. exists Running. split; reflexivity. }
  destruct (@triple_catch_console _ _ _ _ _ _ (eq Running)
              (pw_asyncEffect trigger) eq_refl Herr 0) as (s' & Hrun & <-).
  exact Hrun.
Qed.
End PostWait.

(** What the monitor's verdict means: every completed capture request is
    directly followed by a sleep of [w] and then by a reset of the
    progress. *)
Lemma pw_sound w t :
  run (pw_step w) Running t = Some Running ->
  forall pre r post,
    t = pre ++ Recv r :: post -> succeeds r = true ->
    exists q v post',
      post = Sleep q :: SetCountdownProgress v :: post' /\
      (q == w)%Q /\ (v == 0)%Q.
Proof.
  intros Hrun pre r post -> Hr.
  rewrite run_app in Hrun.
  destruct (run (pw_step w) Running pre) as [s1|]; [|discriminate].
  simpl in Hrun.
  destruct s1; simpl in Hrun; try discriminate.
  rewrite Hr in Hrun.
  destruct post as [|e1 post]; simpl in Hrun; [discriminate|].
  destruct e1; simpl in Hrun; try discriminate.
  destruct (Qeq_bool ms w) eqn:Hq; [|discriminate].
  destruct post as [|e2 post]; simpl in Hrun; [discriminate|].
  destruct e2; simpl in Hrun; try discriminate.
  destruct (Qeq_bool v 0) eqn:Hv; [|discriminate].
  exists ms, v, post. repeat split.
  - apply Qeq_bool_iff; exact Hq.
  - apply Qeq_bool_iff; exact Hv.
Qed.

(** *** Arithmetic of the progress expression *)

Lemma num_succ (i : nat) : (num i + 1 == num (S i))%Q.
Proof.
  unfold num. rewrite Nat2Z.inj_succ. unfold Z.succ.
  rewrite inject_Z_plus. reflexivity.
Qed.

Lemma num_pos (n : nat) : 0 < n -> (0 < num n)%Q.
Proof.
  intro H. unfold num. change 0%Q with (inject_Z 0).
  rewrite <- Zlt_Qlt. lia.
Qed.

Lemma num_le (i j : nat) : i <= j -> (num i <= num j)%Q.
Proof. intro H. unfold num. rewrite <- Zle_Qle. lia. Qed.

Lemma num_nonneg (i : nat) : (0 <= num i)%Q.
Proof. change 0%Q with (num 0). apply num_le. lia. Qed.

Lemma progress_formula (D : Q) (G i : nat) :
  (D * ((num i + 1) / num G) == D * (num (S i) / num G))%Q.
Proof. rewrite num_succ. reflexivity. Qed.

Lemma progress_final (D : Q) (G i : nat) :
  S i = G -> (D * ((num i + 1) / num G) == D)%Q.
Proof.
  intro H. rewrite num_succ, H.
  assert (Hg : ~ (num G == 0)%Q).
  { intro E. pose proof (num_pos (n := G)) as Hp.
    rewrite E in Hp. apply (Qlt_irrefl 0). apply Hp. lia. }
  field. exact Hg.
Qed.

Lemma ratio_mono (G i j : nat) :
  0 < G -> i <= j -> (num i / num G <= num j / num G)%Q.
Proof.
  intros HG Hij. unfold Qdiv. apply Qmult_le_compat_r.
  - apply num_le; exact Hij.
  - apply Qlt_le_weak, Qinv_lt_0_compat, num_pos; exact HG.
Qed.

Lemma progress_mono (D : Q) (G i : nat) :
  (0 <= D)%Q -> i < G ->
  (progress_after D G i <= D * ((num i + 1) / num G))%Q.
Proof.
  intros HD Hi. destruct i as [|j]; simpl.
  - apply Qmult_le_0_compat; [exact HD|].
    rewrite num_succ. unfold Qdiv.
    apply Qmult_le_0_compat; [apply num_nonneg|].
    apply Qinv_le_0_compat, num_nonneg.
  - rewrite !num_succ. rewrite !(Qmult_comm D).
    apply Qmult_le_compat_r; [|exact HD].
    apply ratio_mono; lia.
Qed.

Section Countdown.
Variable backend : nat -> response.
Variable cfg : Config.
Variable cameras : option (list Camera).

Let G := SPINNER_GRANULARITY cfg.

(** Where a run may fail: at a capture step, after the samples of a
    countdown. *)
Let at_capture (s : cd_state) : Prop := exists D last, s = Count D G last.

Lemma cd_tick D i :
  (0 <= D)%Q -> i < G ->
  cd_step G (Count D i (progress_after D G i))
          (SetCountdownProgress (D * ((num i + 1) / num G)))
  = Some (Count D (S i) (progress_after D G (S i))).
Proof.
  intros HD Hi. unfold cd_step.
  apply Nat.ltb_lt in Hi as Hlt. rewrite Hlt.
  assert (H1 : Qeq_bool (D * ((num i + 1) / num G)) (D * (num (S i) / num G)) = true).
  { apply Qeq_bool_iff, progress_formula. }
  assert (H2 : Qle_bool (progress_after D G i) (D * ((num i + 1) / num G)) = true).
  { apply Qle_bool_iff, progress_mono; assumption. }
  assert (H3 : (if Nat.eqb (S i) G then Qeq_bool (D * ((num i + 1) / num G)) D else true)
               = true).
  { destruct (Nat.eqb (S i) G) eqn:E; [|reflexivity].
    apply Nat.eqb_eq in E. apply Qeq_bool_iff, progress_final; exact E. }
  rewrite H1, H2, H3. reflexivity.
Qed.

Lemma cd_countdown D :
  (0 <= D)%Q ->
  triple (cd_step G) (Count D 0 0)
    (for_loop G 0 (fun i =>
       sleep (D / num G) ;;
       emit (SetCountdownProgress (D * ((num i + 1) / num G)))))
    (Count D G (progress_after D G G)) at_capture.
Proof.
  intro HD.
  pose proof (@triple_for_loop _ (cd_step G)
                (fun i => Count D i (progress_after D G i))
                (fun i => sleep (D / num G) ;;
                          emit (SetCountdownProgress (D * ((num i + 1) / num G))))
                at_capture G) as H.
  assert (Hle : G + 0 <= G) by lia.
  specialize (fun Hbody => H Hbody G 0 Hle). cbv beta in H.
  rewrite Nat.add_0_r in H. apply H.
  intros i Hi. emit_step. apply triple_emit. apply cd_tick; assumption.
Qed.

Lemma cd_capture D last :
  triple (cd_step G) (Count D G last) (captureImage backend cameras)
         (Count D G last) at_capture.
Proof.
  pose proof (@triple_captureImage _ (cd_step G) backend cameras
                (Count D G last) (Count D G last) at_capture) as H.
  destruct (first_port cameras); apply H; try (intros; reflexivity);
    exists D, last; reflexivity.
Qed.

Lemma cd_reset D last :
  cd_step G (Count D G last) (SetCountdownProgress 0) = Some Reset.
Proof. simpl. rewrite Nat.ltb_irrefl. reflexivity. Qed.

Hypothesis initial_nonneg : (0 <= PHOTO_TIME_INITIAL cfg)%Q.
Hypothesis subsequent_nonneg : (0 <= PHOTO_TIME_SUBSEQUENT cfg)%Q.

Lemma cd_asyncEffect trigger :
  trigger <> 0 ->
  triple (cd_step G) Await (asyncEffect backend cfg cameras trigger)
         (Count 0 0 0) at_capture.
Proof.
  intro Ht. unfold asyncEffect.
  destruct (Nat.eqb trigger 0) eqn:E; [apply Nat.eqb_eq in E; contradiction|].
  emit_step. emit_step.
  eapply triple_bind; [apply cd_countdown; assumption | intros _].
  eapply triple_bind; [apply cd_capture | intros _].
  emit_step.
  eapply triple_bind.
  { pose proof (@triple_for_loop _ (cd_step G)
                  (fun j => match j with
                            | O => Count (PHOTO_TIME_INITIAL cfg) G
                                     (progress_after (PHOTO_TIME_INITIAL cfg) G G)
                            | S _ => Count (PHOTO_TIME_SUBSEQUENT cfg) G
                                       (progress_after (PHOTO_TIME_SUBSEQUENT cfg) G G)
                            end)) as H.
    simpl in H. eapply H with (bound := (NUM_PHOTOS cfg - 1) + 0); [|lia].
    intros j _.
    eapply triple_bind.
    { apply triple_emit. destruct j; apply cd_reset. }
    intros _. emit_step.
    eapply triple_bind; [apply cd_countdown; assumption | intros _].
    eapply triple_bind; [apply cd_capture | intros _].
    emit_last. }
  intros _.
  eapply triple_bind.
  { apply triple_emit. destruct (NUM_PHOTOS cfg - 1 + 0); apply cd_reset. }
  intros _. emit_step. emit_step. emit_last.
Qed.

Lemma cd_photo_run trigger :
  cd_accepts G (trace (photo_run backend cfg cameras trigger)) = true.
Proof.
  unfold cd_accepts.
  destruct (Nat.eq_dec trigger 0) as [->|Ht]; [reflexivity|].
  assert (Hok : cd_final G (Count 0 0 0) = true).
  { simpl. destruct G; reflexivity. }
  assert (Herr : forall (s' : cd_state) (e : error), at_capture s' ->
            exists s'', cd_step G s' (ConsoleError e) = Some s''
                        /\ cd_final G s'' = true).
  { intros s' e (D & last & ->). exists (Count D G last). split; [reflexivity|].
    simpl. rewrite Nat.eqb_refl. reflexivity. }
  destruct (@triple_catch_console _ _ _ _ _ _ (fun s => cd_final G s = true)
              (cd_asyncEffect Ht) Hok Herr 0) as (s' & Hrun & Hfin).
  unfold photo_run. rewrite Hrun. exact Hfin.
Qed.
End Countdown.


(** *** What the countdown monitor's verdict means *)

#[local] Arguments Nat.eqb : simpl never.
#[local] Arguments Nat.ltb : simpl never.

Lemma progress_values_app (t1 t2 : list event) :
  progress_values (t1 ++ t2) = progress_values t1 ++ progress_values t2.
Proof. unfold progress_values. apply flat_map_app. Qed.

(** The reset: the monitor reaches [Reset] only by a progress update to
    zero. *)
Lemma cd_reset_last G s pre :
  run (cd_step G) s pre = Some Reset ->
  (s = Reset /\ pre = []) \/
  exists pre' v, pre = pre' ++ [SetCountdownProgress v] /\ (v == 0)%Q.
Proof.
  destruct pre as [|e0 pre0] using rev_ind; simpl.
  - intro H; injection H as ->. left; split; reflexivity.
  - clear IHpre0. rewrite run_app.
    destruct (run (cd_step G) s pre0) as [s1|]; [|discriminate].
    simpl. intro H. right.
    destruct (cd_step G s1 e0) as [s2|] eqn:Hs; [|discriminate].
    injection H as ->.
    destruct s1 as [| |D i last]; destruct e0; simpl in Hs; try discriminate.
    + destruct (Qeq_bool v 0) eqn:Hv; [|discriminate].
      exists pre0, v. split; [reflexivity | apply Qeq_bool_iff; exact Hv].
    + destruct (Nat.ltb i G).
      * destruct (_ && _ && _); discriminate.
      * destruct (Qeq_bool v 0) eqn:Hv; [|discriminate].
        exists pre0, v. split; [reflexivity | apply Qeq_bool_iff; exact Hv].
Qed.

(** The samples: from [Count D i last], an accepted trace either sets no
    progress at all (the zero-length countdown), or sets the remaining
    [G - i] samples and, if anything after them, a reset. *)
Lemma cd_samples G D post :
  forall i last sf,
    i <= G ->
    run (cd_step G) (Count D i last) post = Some sf ->
    cd_final G sf = true ->
    (progress_values post = [] /\ i = 0 /\ (D == 0)%Q /\ i < G) \/
    exists samples rest,
      progress_values post = samples ++ rest /\
      List.length samples = G - i /\
      (forall j, j < G - i ->
                 (nth j samples 0 == D * (num (S (i + j)) / num G))%Q) /\
      Sorted Qle (last :: samples) /\
      (i < G -> (List.last samples 0 == D)%Q) /\
      match rest with [] => True | v :: _ => (v == 0)%Q end.
Proof.
  induction post as [|e post IH]; intros i last sf Hi Hrun Hfin.
  - simpl in Hrun. injection Hrun as <-. simpl in Hfin.
    destruct (Nat.eqb i G) eqn:E.
    + apply Nat.eqb_eq in E. right. exists [], []. simpl.
      repeat split; try (intros; lia); repeat constructor.
    + apply Nat.eqb_neq in E. simpl in Hfin.
      apply andb_prop in Hfin as [H0 HD].
      apply Nat.eqb_eq in H0. apply Qeq_bool_iff in HD.
      left. repeat split; auto; lia.
  - destruct e; simpl in Hrun; try exact (IH i last sf Hi Hrun Hfin).
    + (* a progress update *)
      destruct (Nat.ltb i G) eqn:Hlt.
      * apply Nat.ltb_lt in Hlt.
        destruct (Qeq_bool v (D * (num (S i) / num G))) eqn:Hv; [|discriminate].
        destruct (Qle_bool last v) eqn:Hle; [|discriminate].
        destruct (if Nat.eqb (S i) G then Qeq_bool v D else true) eqn:Hend;
          [|discriminate].
        simpl in Hrun.
        apply Qeq_bool_iff in Hv. apply Qle_bool_iff in Hle.
        destruct (IH (S i) v sf Hlt Hrun Hfin)
          as [(_ & Habs & _) | (samples & rest & Hvals & Hlen & Hnth & Hsort & Hlast & Hrest)];
          [discriminate|].
        right. exists (v :: samples), rest.
        split; [simpl; f_equal; exact Hvals|].
        split; [simpl; lia|].
        split.
        { intros j Hj. destruct j as [|j]; simpl.
          - rewrite Nat.add_0_r. exact Hv.
          - replace (i + S j) with (S i + j) by lia. apply Hnth. lia. }
        split; [constructor; [exact Hsort | constructor; exact Hle]|].
        split; [|exact Hrest].
        intros _. destruct samples as [|v' samples'].
        -- simpl in Hlen. simpl.
           assert (E : S i = G) by lia.
           apply Nat.eqb_eq in E. rewrite E in Hend.
           apply Qeq_bool_iff; exact Hend.
        -- change (List.last (v :: v' :: samples') 0%Q)
             with (List.last (v' :: samples') 0%Q).
           apply Hlast. simpl in Hlen. lia.
      * apply Nat.ltb_ge in Hlt.
        destruct (Qeq_bool v 0) eqn:Hv; [|discriminate].
        apply Qeq_bool_iff in Hv.
        right. exists [], (v :: progress_values post). simpl.
        repeat split; try (intros; lia); try exact Hv; repeat constructor.
    + (* a total inside a countdown *)
      discriminate.
Qed.

(** Every countdown phase of an accepted trace. *)
Lemma cd_sound G t :
  cd_accepts G t = true ->
  forall pre D post,
    t = pre ++ SetCountdownTotal D :: post ->
    (exists pre' v, pre = pre' ++ [SetCountdownProgress v] /\ (v == 0)%Q) /\
    ((progress_values post = [] /\ (D == 0)%Q) \/
     exists samples rest,
       progress_values post = samples ++ rest /\
       List.length samples = G /\
       (forall j, j < G -> (nth j samples 0 == D * (num (S j) / num G))%Q) /\
       Sorted Qle (0%Q :: samples) /\
       (0 < G -> (List.last samples 0 == D)%Q) /\
       match rest with [] => True | v :: _ => (v == 0)%Q end).
Proof.
  unfold cd_accepts. intros Hacc pre D post ->.
  rewrite run_app in Hacc.
  destruct (run (cd_step G) Await pre) as [s1|] eqn:Hpre; [|discriminate].
  simpl in Hacc.
  destruct s1 as [| |D' i last]; simpl in Hacc; try discriminate.
  split.
  - destruct (@cd_reset_last G Await pre Hpre) as [[Habs _] | H]; [discriminate | exact H].
  - destruct (run (cd_step G) (Count D 0 0) post) as [sf|] eqn:Hpost; [|discriminate].
    destruct (@cd_samples G D post 0 0%Q sf (Nat.le_0_l G) Hpost Hacc)
      as [(Hnil & _ & HD & _) | (samples & rest & H1 & H2 & H3 & H4 & H5 & H6)].
    + left. split; assumption.
    + right. exists samples, rest. rewrite Nat.sub_0_r in H2, H3.
      repeat split; assumption.
Qed.


(** *** The sequencer, when a camera is selected and the backend answers *)

Lemma count_app p (t1 t2 : list event) : count p (t1 ++ t2) = count p t1 + count p t2.
Proof. unfold count. rewrite filter_app, length_app. reflexivity. Qed.




Section Sequencer.
Variable backend : nat -> response.
Variable cfg : Config.
Variable c : Camera.
Variable cams : list Camera.

Hypothesis port_selected : truthy_str (cam_port c) = true.
Hypothesis backend_answers : forall k, succeeds (backend k) = true.

Let G := SPINNER_GRANULARITY cfg.
Let step := seq_step G (cam_port c).




End Sequencer.


(** *** Without a camera *)

Section NoCamera.
Variable backend backend' : nat -> response.
Variable cfg : Config.
Variable cameras cameras' : option (list Camera).

Hypothesis no_port : first_port cameras = None.
Hypothesis port_selected : first_port cameras' <> None.
Hypothesis backend_answers : forall k, succeeds (backend' k) = true.

(** [sim m' m]: both return, [m] sends nothing, and [m] performs the
    effects of [m'] that are neither network nor console events. *)
Let sim (m' m : M unit) : Prop :=
  forall n' n,
    outcome (m' n') = Ok tt /\ outcome (m n) = Ok tt /\ issued (m n) = n /\
    filter (fun e => negb (is_io e)) (trace (m' n')) = trace (m n).

Lemma sim_ret : sim (ret tt) (ret tt).
Proof. intros n' n. repeat split. Qed.

Lemma sim_emit e : is_io e = false -> sim (emit e) (emit e).
Proof. intros He n' n. unpack. rewrite He. repeat split. Qed.

Lemma sim_bind (m' m : M unit) (f' f : unit -> M unit) :
  sim m' m -> sim (f' tt) (f tt) -> sim (bind m' f') (bind m f).
Proof.
  intros Hm Hf n' n. unfold bind.
  destruct (Hm n' n) as (H1 & H2 & H3 & H4).
  destruct (m' n') as [[r1 t1] k1]; destruct (m n) as [[r2 t2] k2]; unpack.
  subst r1 r2 k2.
  destruct (Hf k1 n) as (H5 & H6 & H7 & H8).
  destruct (f' tt k1) as [[r3 t3] k3]; destruct (f tt n) as [[r4 t4] k4]; unpack.
  rewrite filter_app, H4, H8. repeat split; assumption.
Qed.

Lemma sim_for_loop (b' b : nat -> M unit) :
  (forall i, sim (b' i) (b i)) ->
  forall cnt i, sim (for_loop cnt i b') (for_loop cnt i b).
Proof.
  intros Hb cnt. induction cnt as [|k IH]; intro i; simpl.
  - apply sim_ret.
  - apply sim_bind; [apply Hb | apply IH].
Qed.

Lemma sim_captureImage :
  sim (captureImage backend' cameras') (captureImage backend cameras).
Proof.
  intros n' n. unfold captureImage. rewrite no_port.
  destruct (first_port cameras') as [port|]; [|contradiction].
  unfold Axios.get, Axios.request_with, axios_retry, Axios.retries.
  simpl. unfold bind, Axios.attempt.
  pose proof (backend_answers n') as Hb.
  destruct (backend' n') as [st d|]; simpl in Hb; [|discriminate].
  rewrite Hb. repeat split.
Qed.

Lemma sim_asyncEffect trigger :
  sim (asyncEffect backend' cfg cameras' trigger)
      (asyncEffect backend cfg cameras trigger).
Proof.
  unfold asyncEffect. destruct (Nat.eqb trigger 0); [apply sim_ret|].
  repeat first
    [ apply sim_bind
    | apply sim_emit; reflexivity
    | apply sim_for_loop; intro
    | apply sim_captureImage ].
Qed.

Lemma catch_console_ok (m : M unit) n :
  outcome (m n) = Ok tt -> catch_console m n = m n.
Proof.
  unfold catch_console, try_catch. destruct (m n) as [[r t] k]; unpack.
  intros ->. reflexivity.
Qed.

Lemma sim_photo_run trigger :
  outcome (photo_run backend cfg cameras trigger) = Ok tt /\
  issued (photo_run backend cfg cameras trigger) = 0 /\
  filter (fun e => negb (is_io e)) (trace (photo_run backend' cfg cameras' trigger))
  = trace (photo_run backend cfg cameras trigger).
Proof.
  destruct (sim_asyncEffect trigger 0 0) as (H1 & H2 & H3 & H4).
  unfold photo_run. rewrite !catch_console_ok by assumption.
  repeat split; assumption.
Qed.
End NoCamera.

(** *** The first countdown of a run *)

Lemma trace_bind_pure A B (m : M A) (f : A -> M B) n a tm n' :
  m n = (Ok a, tm, n') -> trace (bind m f n) = tm ++ trace (f a n').
Proof.
  intro H. unfold bind. rewrite H. destruct (f a n') as [[r t] k]. reflexivity.
Qed.

Lemma trace_catch_console (m : M unit) n :
  exists extra, trace (catch_console m n) = trace (m n) ++ extra.
Proof.
  unfold catch_console, try_catch. destruct (m n) as [[[a|e] t] k]; unpack.
  - exists []. rewrite app_nil_r. reflexivity.
  - exists [ConsoleError e]. reflexivity.
Qed.

Lemma countdown_loop (D : Q) (G cnt i n : nat) :
  for_loop cnt i (fun i =>
    sleep (D / num G) ;; emit (SetCountdownProgress (D * ((num i + 1) / num G)))) n
  = (Ok tt,
     flat_map (fun i => [Sleep (D / num G);
                         SetCountdownProgress (D * ((num i + 1) / num G))])
              (seq i cnt),
     n).
Proof.
  revert i. induction cnt as [|k IH]; intro i; [reflexivity|].
  simpl. unfold bind at 1. simpl. rewrite IH. reflexivity.
Qed.

Lemma first_phase backend cfg cameras trigger :
  trigger <> 0 ->
  exists rest,
    trace (photo_run backend cfg cameras trigger) =
    SetCountdownProgress 0 :: SetCountdownTotal (PHOTO_TIME_INITIAL cfg) ::
    flat_map (fun i => [Sleep (PHOTO_TIME_INITIAL cfg / num (SPINNER_GRANULARITY cfg));
                        SetCountdownProgress
                          (PHOTO_TIME_INITIAL cfg *
                           ((num i + 1) / num (SPINNER_GRANULARITY cfg)))])
             (seq 0 (SPINNER_GRANULARITY cfg)) ++ rest.
Proof.
  intro Ht. unfold photo_run.
  destruct (trace_catch_console (asyncEffect backend cfg cameras trigger) 0)
    as [extra ->].
  unfold asyncEffect.
  destruct (Nat.eqb trigger 0) eqn:E; [apply Nat.eqb_eq in E; contradiction|].
  erewrite trace_bind_pure; [|reflexivity].
  erewrite trace_bind_pure; [|reflexivity].
  erewrite trace_bind_pure; [|apply countdown_loop].
  eexists. simpl. rewrite <- app_assoc. reflexivity.
Qed.

(** *** The run without a camera, event by event *)

Lemma bind_run A B (m : M A) (f : A -> M B) n a t n' r t' n'' :
  m n = (Ok a, t, n') -> f a n' = (r, t', n'') -> bind m f n = (r, t ++ t', n'').
Proof. intros Hm Hf. unfold bind. rewrite Hm, Hf. reflexivity. Qed.

Lemma repeat_loop (body : M unit) tb :
  (forall k, body k = (Ok tt, tb, k)) ->
  forall cnt i n,
    for_loop cnt i (fun _ => body) n = (Ok tt, List.concat (repeat tb cnt), n).
Proof.
  intros Hb cnt. induction cnt as [|c IH]; intros i n; [reflexivity|].
  simpl. eapply bind_run; [apply Hb | apply IH].
Qed.

Lemma idle_phase backend cfg cameras D n :
  first_port cameras = None ->
  (emit (SetCountdownProgress 0) ;;
   emit (SetCountdownTotal D) ;;
   for_loop (SPINNER_GRANULARITY cfg) 0 (fun i =>
     sleep (D / num (SPINNER_GRANULARITY cfg)) ;;
     emit (SetCountdownProgress (D * ((num i + 1) / num (SPINNER_GRANULARITY cfg))))) ;;
   captureImage backend cameras ;;
   sleep (1000 + PHOTO_POST_WAIT cfg)) n
  = (Ok tt, countdown_phase cfg D ++ [Sleep (1000 + PHOTO_POST_WAIT cfg)], n).
Proof.
  intro Hnone. unfold captureImage. rewrite Hnone.
  erewrite bind_run; [|reflexivity|].
  2:{ erewrite bind_run; [|reflexivity|].
      2:{ erewrite bind_run; [|apply countdown_loop|].
          2:{ erewrite bind_run; reflexivity. }
          reflexivity. }
      reflexivity. }
  unfold countdown_phase. simpl. reflexivity.
Qed.

Lemma idle_asyncEffect backend cfg cameras trigger n :
  first_port cameras = None -> trigger <> 0 ->
  asyncEffect backend cfg cameras trigger n = (Ok tt, idle_schedule cfg, n).
Proof.
  intros Hnone Ht. unfold asyncEffect.
  destruct (Nat.eqb trigger 0) eqn:E; [apply Nat.eqb_eq in E; contradiction|].
  unfold captureImage. rewrite Hnone.
  erewrite bind_run; [|reflexivity|].
  2:{ erewrite bind_run; [|reflexivity|].
      2:{ erewrite bind_run; [|apply countdown_loop|].
          2:{ erewrite bind_run; [|reflexivity|].
              2:{ erewrite bind_run; [|reflexivity|].
                  2:{ erewrite bind_run.
                      2:{ apply repeat_loop. intro k.
                          pose proof (@idle_phase backend cfg cameras
                                        (PHOTO_TIME_SUBSEQUENT cfg) k Hnone) as H2.
                          unfold captureImage in H2. rewrite Hnone in H2. exact H2. }
                      2:{ erewrite bind_run; [|reflexivity|].
                          2:{ erewrite bind_run; [|reflexivity|].
                              2:{ erewrite bind_run; reflexivity. }
                              reflexivity. }
                          reflexivity. }
                      reflexivity. }
                  reflexivity. }
              reflexivity. }
          reflexivity. }
      reflexivity. }
  unfold idle_schedule, countdown_phase. simpl.
  rewrite <- ?app_assoc. reflexivity.
Qed.

Lemma total_sleep_app (t1 t2 : list event) :
  (total_sleep (t1 ++ t2) == total_sleep t1 + total_sleep t2)%Q.
Proof.
  induction t1 as [|e t1 IH]; simpl.
  - ring.
  - destruct e; try exact IH. rewrite IH. ring.
Qed.

Lemma total_sleep_ticks (D : Q) (G cnt i : nat) :
  (total_sleep
     (flat_map (fun i => [Sleep (D / num G);
                          SetCountdownProgress (D * ((num i + 1) / num G))])
               (seq i cnt))
   == num cnt * (D / num G))%Q.
Proof.
  revert i. induction cnt as [|c IH]; intro i.
  - simpl. unfold num. simpl. ring.
  - cbn [seq flat_map app total_sleep fold_right].
    change (fold_right _ 0%Q ?l) with (total_sleep l).
    rewrite IH, <- num_succ. ring.
Qed.

Lemma total_sleep_phase cfg D :
  1 <= SPINNER_GRANULARITY cfg ->
  (total_sleep (countdown_phase cfg D) == D)%Q.
Proof.
  intro HG. unfold countdown_phase.
  cbn [total_sleep fold_right].
  change (fold_right _ 0%Q ?l) with (total_sleep l).
  rewrite total_sleep_ticks. field.
  intro E. pose proof (num_pos HG) as Hp. rewrite E in Hp.
  exact (Qlt_irrefl 0 Hp).
Qed.

Lemma total_sleep_repeat (tb : list event) (cnt : nat) :
  (total_sleep (List.concat (repeat tb cnt)) == num cnt * total_sleep tb)%Q.
Proof.
  induction cnt as [|c IH].
  - simpl. unfold num. simpl. ring.
  - cbn [repeat List.concat]. rewrite total_sleep_app, IH, <- num_succ. ring.
Qed.

Lemma total_sleep_idle cfg :
  1 <= SPINNER_GRANULARITY cfg ->
  (total_sleep (idle_schedule cfg)
   == PHOTO_TIME_INITIAL cfg + (1000 + PHOTO_POST_WAIT cfg)
      + num (NUM_PHOTOS cfg - 1)
        * (PHOTO_TIME_SUBSEQUENT cfg + (1000 + PHOTO_POST_WAIT cfg))
      + 3000)%Q.
Proof.
  intro HG. unfold idle_schedule.
  rewrite !total_sleep_app, total_sleep_repeat, !total_sleep_app.
  rewrite !(fun D => @total_sleep_phase cfg D HG).
  cbn [total_sleep fold_right]. ring.
Qed.

(** *** The claims on the capture run *)

Import Scenario.




(** C2. In every run, whatever the backend answers, each call of
    [setCountdownTotal(D)] directly follows a reset of the progress to zero,
    and the progress values set after it are either none at all with D = 0
    (the zero-length countdown that ends the run) or begin with exactly G
    samples, the j-th (from 0) equal to D * ((j + 1) / G), non-decreasing from
    the reset value, the last equal to D, and followed, if by anything, by the
    next reset.  With the constants of the source the samples of the first
    phase are 500, 1000, ..., 5000, in exact arithmetic and in double
    precision alike. *)
Theorem countdown_progress backend cfg cameras trigger :
  (0 <= PHOTO_TIME_INITIAL cfg)%Q ->
  (0 <= PHOTO_TIME_SUBSEQUENT cfg)%Q ->
  (forall pre D post,
      trace (photo_run backend cfg cameras trigger)
      = pre ++ SetCountdownTotal D :: post ->
      (exists pre' v, pre = pre' ++ [SetCountdownProgress v] /\ (v == 0)%Q) /\
      ((progress_values post = [] /\ (D == 0)%Q) \/
       exists samples rest,
         progress_values post = samples ++ rest /\
         List.length samples = SPINNER_GRANULARITY cfg /\
         (forall j, j < SPINNER_GRANULARITY cfg ->
                    (nth j samples 0 == D * (num (S j) / num (SPINNER_GRANULARITY cfg)))%Q) /\
         Sorted Qle (0%Q :: samples) /\
         (0 < SPINNER_GRANULARITY cfg -> (List.last samples 0 == D)%Q) /\
         match rest with [] => True | v :: _ => (v == 0)%Q end)) /\
  (trigger <> 0 ->
   Forall2 Qeq
     (firstn 10 (tl (progress_values
                       (trace (photo_run backend source_config cameras trigger)))))
     [500; 1000; 1500; 2000; 2500; 3000; 3500; 4000; 4500; 5000]%Q) /\
  map (progress_f64 5000 10) (seq 0 10)
  = [500; 1000; 1500; 2000; 2500; 3000; 3500; 4000; 4500; 5000]%float.
Proof.
  intros HI HS. split; [|split].
  - intros pre D post Ht.
    apply (@cd_sound (SPINNER_GRANULARITY cfg) _
             (@cd_photo_run backend cfg cameras HI HS trigger) pre D post Ht).
  - intro Ht.
    destruct (@first_phase backend source_config cameras trigger Ht) as [rest ->].
    simpl. repeat constructor.
  - vm_compute. reflexivity.
Qed.

Lemma countdown_progress_witness :
  (exists pre' v, [SetCountdownProgress 0] = pre' ++ [SetCountdownProgress v] /\ (v == 0)%Q) /\
  ((progress_values (skipn 2 (trace (photo_run always_ok source_config one_camera 1))) = []
    /\ (5000 == 0)%Q) \/
   exists samples rest,
     progress_values (skipn 2 (trace (photo_run always_ok source_config one_camera 1)))
     = samples ++ rest /\
     List.length samples = 10 /\
     (forall j, j < 10 -> (nth j samples 0 == 5000 * (num (S j) / num 10))%Q) /\
     Sorted Qle (0%Q :: samples) /\
     (0 < 10 -> (List.last samples 0 == 5000)%Q) /\
     match rest with [] => True | v :: _ => (v == 0)%Q end).
Proof.
  apply (proj1 (@countdown_progress always_ok source_config one_camera 1
                  ltac:(discriminate) ltac:(discriminate))
               [SetCountdownProgress 0] 5000%Q
               (skipn 2 (trace (photo_run always_ok source_config one_camera 1)))).
  reflexivity.
Defined.

(** C8, as the code has it.  In every run, whatever the backend answers,
    a capture request that completes with success is directly followed by a
    sleep of 1000 + [PHOTO_POST_WAIT] milliseconds, and that by the reset that
    opens the next countdown or the terminal cooldown. *)
Theorem post_capture_wait backend cfg cameras trigger pre r post :
  trace (photo_run backend cfg cameras trigger) = pre ++ Recv r :: post ->
  succeeds r = true ->
  exists q v post',
    post = Sleep q :: SetCountdownProgress v :: post' /\
    (q == 1000 + PHOTO_POST_WAIT cfg)%Q /\ (v == 0)%Q.
Proof.
  intros Ht Hr.
  exact (@pw_sound _ _ (@pw_photo_run backend cfg cameras trigger) pre r post Ht Hr).
Qed.

Lemma post_capture_wait_witness :
  exists q v post',
    skipn 24 (trace (photo_run always_ok source_config one_camera 1))
    = Sleep q :: SetCountdownProgress v :: post' /\
    (q == 1000 + PHOTO_POST_WAIT source_config)%Q /\ (v == 0)%Q.
Proof.
  apply (@post_capture_wait always_ok source_config one_camera 1
           (firstn 23 (trace (photo_run always_ok source_config one_camera 1)))
           (HttpResponse 200 NoData)
           (skipn 24 (trace (photo_run always_ok source_config one_camera 1)))).
  - reflexivity.
  - reflexivity.
Defined.

(** C8, as the spec states it, fails on the source's constants: the first
    capture request completes and the sleep that follows lasts 1000 ms, which
    is not [PHOTO_POST_WAIT] = 0. *)
Lemma post_capture_wait_is_not_PHOTO_POST_WAIT :
  exists pre r q post,
    trace (photo_run always_ok source_config one_camera 1)
    = pre ++ Recv r :: Sleep q :: post /\
    succeeds r = true /\
    ~ (q == PHOTO_POST_WAIT source_config)%Q.
Proof.
  exists (firstn 23 (trace (photo_run always_ok source_config one_camera 1))),
         (HttpResponse 200 NoData), 1000%Q,
         (skipn 25 (trace (photo_run always_ok source_config one_camera 1))).
  split; [reflexivity|]. split; [reflexivity|].
  intro H. discriminate H.
Qed.

(** C10. When [cameras?.[0]?.port] is falsy the run returns without error
    and sends no request.  A triggered run performs, event by event, the
    schedule of the spec with the capture steps left out: the initial
    countdown phase with its [G] ticks and the wait after it, [NUM_PHOTOS - 1]
    subsequent phases each with its ticks and its wait, and the terminal
    cooldown with the signal to the file poller.  With [G] >= 1 it sleeps as
    long as the phases and the waits add up to.  Its trace is also the trace
    of a run with a camera and an answering backend with the network events
    removed. *)
Theorem no_camera_no_capture backend cfg cameras trigger :
  first_port cameras = None ->
  outcome (photo_run backend cfg cameras trigger) = Ok tt /\
  issued (photo_run backend cfg cameras trigger) = 0 /\
  count is_send (trace (photo_run backend cfg cameras trigger)) = 0 /\
  (forall backend' cameras',
    (forall k, succeeds (backend' k) = true) ->
    first_port cameras' <> None ->
    filter (fun e => negb (is_io e)) (trace (photo_run backend' cfg cameras' trigger))
    = trace (photo_run backend cfg cameras trigger)) /\
  (trigger <> 0 ->
   trace (photo_run backend cfg cameras trigger) = idle_schedule cfg) /\
  (trigger <> 0 -> 1 <= SPINNER_GRANULARITY cfg ->
   (total_sleep (trace (photo_run backend cfg cameras trigger))
    == PHOTO_TIME_INITIAL cfg + (1000 + PHOTO_POST_WAIT cfg)
       + num (NUM_PHOTOS cfg - 1)
         * (PHOTO_TIME_SUBSEQUENT cfg + (1000 + PHOTO_POST_WAIT cfg))
       + 3000)%Q).
Proof.
  intro Hnone.
  assert (Hsim : forall backend' cameras',
             (forall k, succeeds (backend' k) = true) ->
             first_port cameras' <> None ->
             outcome (photo_run backend cfg cameras trigger) = Ok tt /\
             issued (photo_run backend cfg cameras trigger) = 0 /\
             filter (fun e => negb (is_io e))
                    (trace (photo_run backend' cfg cameras' trigger))
             = trace (photo_run backend cfg cameras trigger)).
  { intros backend' cameras' Hok Hsel.
    apply (@sim_photo_run backend backend' cfg cameras cameras' Hnone Hsel Hok trigger). }
  assert (Htrace : trigger <> 0 ->
                   trace (photo_run backend cfg cameras trigger) = idle_schedule cfg).
  { intro Ht. unfold photo_run, catch_console, try_catch.
    rewrite (@idle_asyncEffect backend cfg cameras trigger 0 Hnone Ht). reflexivity. }
  destruct (Hsim always_ok one_camera) as (H1 & H2 & H3);
    [intro; reflexivity | discriminate |].
  split; [exact H1|]. split; [exact H2|]. split; [|split; [|split]].
  - rewrite <- H3. unfold count.
    generalize (trace (photo_run always_ok cfg one_camera trigger)) as t.
    clear. intro t. induction t as [|e t IH]; [reflexivity|].
    simpl. destruct e; simpl; exact IH.
  - intros backend' cameras' Hok Hsel. apply (Hsim backend' cameras' Hok Hsel).
  - exact Htrace.
  - intros Ht HG. rewrite (Htrace Ht). apply total_sleep_idle. exact HG.
Qed.

Lemma no_camera_no_capture_witness :
  outcome (photo_run always_ok source_config (Some []) 1) = Ok tt /\
  issued (photo_run always_ok source_config (Some []) 1) = 0 /\
  count is_send (trace (photo_run always_ok source_config (Some []) 1)) = 0 /\
  (forall backend' cameras',
    (forall k, succeeds (backend' k) = true) ->
    first_port cameras' <> None ->
    filter (fun e => negb (is_io e))
           (trace (photo_run backend' source_config cameras' 1))
    = trace (photo_run always_ok source_config (Some []) 1)) /\
  (1 <> 0 ->
   trace (photo_run always_ok source_config (Some []) 1) = idle_schedule source_config) /\
  (1 <> 0 -> 1 <= SPINNER_GRANULARITY source_config ->
   (total_sleep (trace (photo_run always_ok source_config (Some []) 1))
    == PHOTO_TIME_INITIAL source_config + (1000 + PHOTO_POST_WAIT source_config)
       + num (NUM_PHOTOS source_config - 1)
         * (PHOTO_TIME_SUBSEQUENT source_config + (1000 + PHOTO_POST_WAIT source_config))
       + 3000)%Q).
Proof.
  apply (@no_camera_no_capture always_ok source_config (Some []) 1).
  reflexivity.
Defined.

(** With the source's constants the run without a camera sleeps 17 seconds:
    5000 + 1000 + 2 * (3000 + 1000) + 3000 ms, in 34 sleeps. *)
Example no_camera_run_takes_17s :
  (total_sleep (trace (photo_run always_ok source_config None 1)) == 17000)%Q /\
  count (fun e => match e with Sleep _ => true | _ => false end)
        (trace (photo_run always_ok source_config None 1)) = 34 /\
  count is_progress (trace (photo_run always_ok source_config None 1)) = 34.
Proof. repeat split. Qed.


End CaptureRun.

(* ================================================================= *)
(** * lodash: what [sortBy] guarantees *)

Module SortBy.
Import Lodash.

Section Facts.
Context {A K : Type}.
Variable leb : K -> K -> bool.
Variable key : A -> K.

Let le := fun x y => leb (key x) (key y) = true.

Lemma insert_perm x l : Permutation (insert leb key x l) (x :: l).
Proof.
  induction l as [|y l IH]; simpl; [reflexivity|].
  destruct (leb (key x) (key y)); [reflexivity|].
  rewrite IH. apply perm_swap.
Qed.

Lemma sortBy_perm l : Permutation (sortBy leb key l) l.
Proof.
  induction l as [|x l IH]; simpl; [reflexivity|].
  rewrite insert_perm. constructor. exact IH.
Qed.

Lemma sortBy_In x l : In x (sortBy leb key l) <-> In x l.
Proof.
  split; apply Permutation_in;
    [apply sortBy_perm | symmetry; apply sortBy_perm].
Qed.

(** Stability.  A filter [p] sees the same list before and after the sort
    when the elements it keeps already stand in ascending order of
    their keys. *)
Lemma filter_insert p x l :
  (forall y, In y l -> p x = true -> p y = true -> leb (key x) (key y) = true) ->
  filter p (insert leb key x l) = filter p (x :: l).
Proof.
  induction l as [|y l IH]; intro H; simpl; [reflexivity|].
  destruct (leb (key x) (key y)) eqn:E; [reflexivity|].
  simpl. rewrite IH by (intros; apply H; simpl; auto). simpl.
  destruct (p x) eqn:Hx; destruct (p y) eqn:Hy; try reflexivity.
  rewrite H in E; simpl; auto. discriminate.
Qed.

Lemma filter_sortBy p l :
  (forall l1 x l2 y l3,
      l = l1 ++ x :: l2 ++ y :: l3 ->
      p x = true -> p y = true -> leb (key x) (key y) = true) ->
  filter p (sortBy leb key l) = filter p l.
Proof.
  induction l as [|x l IH]; intro H; simpl; [reflexivity|].
  rewrite filter_insert.
  - simpl. rewrite IH; [reflexivity|].
    intros l1 a l2 b l3 ->. apply (H (x :: l1) a l2 b l3). reflexivity.
  - intros y Hy Hx Hpy. apply (proj1 (sortBy_In y l)) in Hy.
    apply in_split in Hy as (l2 & l3 & ->).
    apply (H [] x l2 y l3); auto.
Qed.

Hypothesis leb_total : forall a b, leb a b = true \/ leb b a = true.
Hypothesis leb_trans : forall a b c, leb a b = true -> leb b c = true -> leb a c = true.

Lemma insert_sorted x l :
  StronglySorted le l -> StronglySorted le (insert leb key x l).
Proof.
  induction 1 as [|y l Hl IH Hy]; simpl.
  - repeat constructor.
  - destruct (leb (key x) (key y)) eqn:E.
    + constructor; [constructor; assumption|].
      constructor; [exact E|].
      eapply Forall_impl; [|exact Hy]. intros z Hz.
      eapply leb_trans; eassumption.
    + constructor; [exact IH|].
      assert (Hyx : leb (key y) (key x) = true).
      { destruct (leb_total (key x) (key y)) as [H|H]; [congruence | exact H]. }
      apply Forall_forall. intros z Hz.
      apply (Permutation_in _ (insert_perm x l)) in Hz.
      destruct Hz as [<-|Hz]; [exact Hyx|].
      rewrite Forall_forall in Hy. apply Hy. exact Hz.
Qed.

Lemma sortBy_sorted l : StronglySorted le (sortBy leb key l).
Proof.
  induction l as [|x l IH]; simpl; [constructor | apply insert_sorted; exact IH].
Qed.
End Facts.

(** In a sorted list whose order never lets an element outside [p] precede
    one inside, the elements of [p] come first. *)
Lemma sorted_partition A (R : A -> A -> Prop) (p : A -> bool) l :
  StronglySorted R l ->
  (forall x y, R x y -> p x = false -> p y = false) ->
  l = filter p l ++ filter (fun x => negb (p x)) l.
Proof.
  intros Hs HR. induction Hs as [|x l Hl IH Hx]; simpl; [reflexivity|].
  destruct (p x) eqn:Hp; simpl.
  - f_equal. exact IH.
  - assert (Hnone : filter p l = []).
    { clear IH Hl. induction l as [|y l IHl]; [reflexivity|].
      simpl. inversion Hx as [|? ? Hxy Hrest]; subst.
      rewrite (HR x y Hxy Hp). apply IHl. exact Hrest. }
    rewrite Hnone in *. simpl in *. f_equal. exact IH.
Qed.

Lemma StronglySorted_rev A (R : A -> A -> Prop) l :
  StronglySorted R l -> StronglySorted (fun x y => R y x) (rev l).
Proof.
  induction 1 as [|x l Hl IH Hx]; simpl; [constructor|].
  assert (Happ : forall l1, StronglySorted (fun x y => R y x) l1 ->
                            Forall (fun y => R x y) l1 ->
                            StronglySorted (fun x y => R y x) (l1 ++ [x])).
  { induction l1 as [|z l1 IH1]; intros Hs Hf; simpl.
    - repeat constructor.
    - inversion Hs; subst. inversion Hf; subst.
      constructor; [apply IH1; assumption|].
      apply Forall_app. split; [assumption | repeat constructor; assumption]. }
  apply Happ; [exact IH|].
  apply Forall_rev. exact Hx.
Qed.

Lemma StronglySorted_impl A (R R' : A -> A -> Prop) l :
  (forall x y, R x y -> R' x y) -> StronglySorted R l -> StronglySorted R' l.
Proof.
  intros HR. induction 1 as [|x l Hl IH Hx]; constructor; [exact IH|].
  eapply Forall_impl; [|exact Hx]. intros y. apply HR.
Qed.

Lemma Zleb_total (a b : Z) : (a <=? b)%Z = true \/ (b <=? a)%Z = true.
Proof. rewrite !Z.leb_le. lia. Qed.

Lemma Zleb_trans (a b c : Z) :
  (a <=? b)%Z = true -> (b <=? c)%Z = true -> (a <=? c)%Z = true.
Proof. rewrite !Z.leb_le. lia. Qed.

Lemma lex_leb_spec (a b : Z * Z) :
  lex_leb a b = true <->
  (fst a < fst b \/ (fst a = fst b /\ snd a <= snd b))%Z.
Proof.
  unfold lex_leb.
  rewrite orb_true_iff, andb_true_iff, Z.ltb_lt, Z.eqb_eq, Z.leb_le.
  reflexivity.
Qed.

Lemma lex_leb_total (a b : Z * Z) : lex_leb a b = true \/ lex_leb b a = true.
Proof. rewrite !lex_leb_spec. lia. Qed.

Lemma lex_leb_trans (a b c : Z * Z) :
  lex_leb a b = true -> lex_leb b c = true -> lex_leb a c = true.
Proof. rewrite !lex_leb_spec. lia. Qed.

End SortBy.

(* ================================================================= *)
(** * web-simple: flattening and ranking the file hierarchy *)

Module Files.
Import WebSimple Scenario.

(** Induction on a hierarchy, with the hypothesis for every child of a
    folder. *)
Lemma node_ind' (P : node -> Prop) :
  (forall f, P (FileNode f)) ->
  (forall name children, Forall P children -> P (FolderNode name children)) ->
  forall obj, P obj.
Proof.
  intros Hfile Hfolder.
  fix IH 1. intros [f | name children].
  - apply Hfile.
  - apply Hfolder. induction children as [|c cs IHcs]; constructor.
    + apply IH.
    + exact IHcs.
Qed.




Lemma firstn_length_le A (l : list A) n : List.length (firstn n l) <= n.
Proof. rewrite length_firstn. lia. Qed.

(** C5, as the code has it.  The latest list is the first three entries of
    a ranking of the flattened hierarchy that is in non-increasing order of
    mtime and in which the entries of equal mtime stand in the reverse of
    their traversal order. *)
Theorem latest_ranking cameraFiles :
  List.length (latestFiles cameraFiles) <= 3 /\
  exists ranking,
    latestFiles cameraFiles = firstn 3 ranking /\
    Permutation ranking (flattened cameraFiles) /\
    StronglySorted (fun x y => (mtime (snd y) <= mtime (snd x))%Z) ranking /\
    forall m,
      filter (fun pf => (mtime (snd pf) =? m)%Z) ranking
      = rev (filter (fun pf => (mtime (snd pf) =? m)%Z) (flattened cameraFiles)).
Proof.
  split; [apply firstn_length_le|].
  exists (rev (Lodash.sortBy Z.leb (fun pf => mtime (snd pf)) (flattened cameraFiles))).
  split; [|split; [|split]].
  - unfold latestFiles, flattened. destruct cameraFiles; reflexivity.
  - rewrite <- Permutation_rev. apply SortBy.sortBy_perm.
  - apply SortBy.StronglySorted_rev.
    eapply SortBy.StronglySorted_impl;
      [|apply SortBy.sortBy_sorted; [apply SortBy.Zleb_total | apply SortBy.Zleb_trans]].
    intros x y H. apply Z.leb_le. exact H.
  - intro m. rewrite filter_rev. f_equal.
    apply SortBy.filter_sortBy.
    intros l1 x l2 y l3 _ Hx Hy.
    apply Z.eqb_eq in Hx, Hy. apply Z.leb_le. lia.
Qed.


(** C5, as the spec states it, fails: two pictures of equal mtime are
    ranked in the reverse of their traversal order (and the ranking is then
    not strictly descending). *)
Lemma latest_ties_reversed :
  flattened (Some burst)
  = [("/DCIM", file "a.jpg" 100 "image/jpeg"); ("/DCIM", file "b.jpg" 100 "image/jpeg")]%string /\
  latestFiles (Some burst)
  = [("/DCIM", file "b.jpg" 100 "image/jpeg"); ("/DCIM", file "a.jpg" 100 "image/jpeg")]%string.
Proof. split; reflexivity. Qed.


End Files.

(* ================================================================= *)
(** * web/luum: the settings list *)

Module Settings.
Import Web Lodash Scenario.

(** *** Order of display *)

Lemma findIndex_from_spec A (p : A -> bool) l :
  forall i, (0 <= i)%Z ->
    if existsb p l then (i <= findIndex_from p i l)%Z
    else findIndex_from p i l = (-1)%Z.
Proof.
  induction l as [|x l IH]; intros i Hi; simpl; [reflexivity|].
  destruct (p x); simpl; [lia|].
  specialize (IH (i + 1)%Z ltac:(lia)).
  destruct (existsb p l); lia.
Qed.

Lemma findIndex_from_app A (p : A -> bool) l1 x r :
  (forall z, In z l1 -> p z = false) -> p x = true ->
  forall i, findIndex_from p i (l1 ++ x :: r) = (i + Z.of_nat (List.length l1))%Z.
Proof.
  intros Hl1 Hx. induction l1 as [|z l1 IH]; intro i; simpl.
  - rewrite Hx. lia.
  - rewrite (Hl1 z (or_introl eq_refl)).
    rewrite IH by (intros; apply Hl1; simpl; auto). lia.
Qed.

Lemma indexOf_favorite favorites s :
  if isFavorite favorites s then (0 <= indexOf favorites (path s))%Z
  else indexOf favorites (path s) = (-1)%Z.
Proof.
  unfold isFavorite, includes, indexOf, findIndex.
  apply findIndex_from_spec. lia.
Qed.

(** With pairwise distinct ids, [findIndex(settings, {id})] is the position
    in the fetched list. *)
Lemma position_by_id settings l1 x r :
  NoDup (map id settings) ->
  settings = l1 ++ x :: r ->
  findIndex (fun s' => (id s' =? id x)%Z) settings = Z.of_nat (List.length l1).
Proof.
  intros Hnd ->. unfold findIndex. rewrite findIndex_from_app.
  - lia.
  - intros z Hz. apply Z.eqb_neq. intro E.
    rewrite map_app in Hnd. simpl in Hnd.
    apply NoDup_remove_2 in Hnd. apply Hnd.
    apply in_or_app. left. rewrite <- E. apply in_map. exact Hz.
  - apply Z.eqb_refl.
Qed.

Lemma fetch_order_by_id settings l1 x l2 y l3 :
  NoDup (map id settings) ->
  settings = l1 ++ x :: l2 ++ y :: l3 ->
  (findIndex (fun s' => (id s' =? id x)%Z) settings
   <= findIndex (fun s' => (id s' =? id y)%Z) settings)%Z.
Proof.
  intros Hnd E.
  rewrite (@position_by_id settings l1 x (l2 ++ y :: l3) Hnd E).
  assert (E' : settings = (l1 ++ x :: l2) ++ y :: l3).
  { rewrite E, <- app_assoc. reflexivity. }
  rewrite (@position_by_id settings (l1 ++ x :: l2) y l3 Hnd E').
  rewrite length_app. simpl. lia.
Qed.

Lemma StronglySorted_filter A (R : A -> A -> Prop) (p : A -> bool) l :
  StronglySorted R l -> StronglySorted R (filter p l).
Proof.
  induction 1 as [|x l Hl IH Hx]; simpl; [constructor|].
  destruct (p x); [|exact IH].
  constructor; [exact IH|].
  apply Forall_forall. intros y Hy. apply filter_In in Hy as [Hy _].
  rewrite Forall_forall in Hx. apply Hx. exact Hy.
Qed.

Lemma displayed_sorted favorites settings :
  StronglySorted
    (fun x y => lex_leb (sort_key favorites settings x) (sort_key favorites settings y) = true)
    (displayed favorites settings).
Proof.
  apply SortBy.sortBy_sorted; [apply SortBy.lex_leb_total | apply SortBy.lex_leb_trans].
Qed.

(** C3, as the code has it.  The displayed list is a permutation of the
    fetched one in which every favourited setting precedes every other one;
    the favourited settings stand in descending order of their position in
    the favourites list (the one added last comes first); and when the ids
    are pairwise distinct the settings that are not favourited, and those
    sharing one path, keep their fetch order. *)
Theorem favourites_first favorites settings :
  Permutation (displayed favorites settings) settings /\
  displayed favorites settings
  = filter (isFavorite favorites) (displayed favorites settings)
    ++ filter (fun s => negb (isFavorite favorites s)) (displayed favorites settings) /\
  StronglySorted
    (fun a b => (indexOf favorites (path b) <= indexOf favorites (path a))%Z)
    (filter (isFavorite favorites) (displayed favorites settings)) /\
  (NoDup (map id settings) ->
   filter (fun s => negb (isFavorite favorites s)) (displayed favorites settings)
   = filter (fun s => negb (isFavorite favorites s)) settings /\
   forall p,
     filter (fun s => String.eqb (path s) p) (displayed favorites settings)
     = filter (fun s => String.eqb (path s) p) settings).
Proof.
  split; [apply SortBy.sortBy_perm|]. split; [|split].
  - apply SortBy.sorted_partition with (1 := displayed_sorted favorites settings).
    intros x y Hxy Hx. apply SortBy.lex_leb_spec in Hxy. simpl in Hxy.
    pose proof (indexOf_favorite favorites x) as Ix. rewrite Hx in Ix.
    pose proof (indexOf_favorite favorites y) as Iy.
    destruct (isFavorite favorites y); [lia | reflexivity].
  - apply StronglySorted_filter.
    eapply SortBy.StronglySorted_impl; [|apply displayed_sorted].
    intros x y Hxy. apply SortBy.lex_leb_spec in Hxy. simpl in Hxy. lia.
  - intro Hnd. split; [|intro p]; apply SortBy.filter_sortBy;
      intros l1 x l2 y l3 E Hx Hy; apply SortBy.lex_leb_spec; simpl;
      pose proof (@fetch_order_by_id settings l1 x l2 y l3 Hnd E) as Hid.
    + apply negb_true_iff in Hx, Hy.
      pose proof (indexOf_favorite favorites x) as Ix. rewrite Hx in Ix.
      pose proof (indexOf_favorite favorites y) as Iy. rewrite Hy in Iy.
      lia.
    + apply String.eqb_eq in Hx, Hy. rewrite Hx, Hy. lia.
Qed.

Lemma favourites_first_witness :
  filter (fun s => negb (isFavorite ["/main/imgsettings/iso"%string] s))
         (displayed ["/main/imgsettings/iso"%string] [aperture; iso])
  = filter (fun s => negb (isFavorite ["/main/imgsettings/iso"%string] s)) [aperture; iso] /\
  forall p,
    filter (fun s => String.eqb (path s) p)
           (displayed ["/main/imgsettings/iso"%string] [aperture; iso])
    = filter (fun s => String.eqb (path s) p) [aperture; iso].
Proof.
  apply (proj2 (proj2 (proj2
           (@favourites_first ["/main/imgsettings/iso"%string] [aperture; iso])))).
  repeat constructor; simpl; intuition discriminate.
Defined.

(** C3, as the spec states it, fails: with both settings favourited the
    display order among them is not their fetch order, and it changes with the
    order of the favourites list. *)
Lemma favourites_not_in_fetch_order :
  filter (isFavorite [path iso; path aperture]) [iso; aperture] = [iso; aperture] /\
  displayed [path iso; path aperture] [iso; aperture] = [aperture; iso] /\
  displayed [path aperture; path iso] [iso; aperture] = [iso; aperture].
Proof. repeat split; reflexivity. Qed.

(** Without distinct ids even the settings that are not favourited may leave
    their fetch order. *)
Example duplicate_ids_reorder :
  displayed [] [setting 7 "a"; setting 8 "b"; setting 7 "c"]
  = [setting 7 "a"; setting 7 "c"; setting 8 "b"].
Proof. reflexivity. Qed.

(** *** Updating a setting *)

Lemma fetchSettings_once backend camera n :
  exists t,
    fetchSettings backend camera n = (Ok tt, t, S n) /\
    count is_settings_fetch t = 1 /\ count is_put_send t = 0 /\ count is_send t = 1.
Proof.
  unfold fetchSettings, catch_console, try_catch, bind, Axios.get,
    Axios.request_with, Axios.attempt.
  destruct (backend n) as [st d|]; [destruct (Axios.validateStatus st)|];
    simpl; eexists; repeat split.
Qed.

(** C4. For a setting that is not read-only, a change sends one PUT; when
    it succeeds or fails with status 500 the callback returns and the settings
    are fetched again exactly once; on every other failure the callback throws
    and nothing is fetched. *)
Theorem update_refetch backend camera setting newVal triggerRefresh n :
  truthy (readonly setting) = false ->
  count is_put_send
        (trace (change_then_render backend camera setting newVal triggerRefresh n)) = 1 /\
  (tolerated (backend n) = true ->
   outcome (change_then_render backend camera setting newVal triggerRefresh n) = Ok tt /\
   count is_settings_fetch
         (trace (change_then_render backend camera setting newVal triggerRefresh n)) = 1) /\
  (tolerated (backend n) = false ->
   (exists e,
       outcome (change_then_render backend camera setting newVal triggerRefresh n)
       = Throw e) /\
   count is_settings_fetch
         (trace (change_then_render backend camera setting newVal triggerRefresh n)) = 0).
Proof.
  intro Hrw.
  destruct (fetchSettings_once backend camera (S n)) as (t & Hf & Hf1 & Hf2 & _).
  unfold change_then_render, onChange. rewrite Hrw.
  unfold try_catch, bind, emit, Axios.put, Axios.request_with, Axios.attempt, tolerated.
  simpl.
  destruct (backend n) as [st d|].
  - destruct (Axios.validateStatus st) eqn:Hv; simpl.
    + unfold triggerRefresh_after. simpl.
      replace (Nat.eqb (triggerRefresh + 1) triggerRefresh) with false
        by (symmetry; apply Nat.eqb_neq; lia).
      rewrite Hf. unpack. unfold count in *. simpl.
      rewrite ?filter_app, ?length_app. simpl.
      repeat split; try discriminate; lia.
    + destruct (st =? 500)%Z eqn:H500; simpl.
      * unfold triggerRefresh_after. simpl.
        replace (Nat.eqb (triggerRefresh + 1) triggerRefresh) with false
          by (symmetry; apply Nat.eqb_neq; lia).
        rewrite Hf. unpack. unfold count in *. simpl.
        rewrite ?filter_app, ?length_app. simpl.
        repeat split; try discriminate; lia.
      * unfold triggerRefresh_after. simpl.
        rewrite Nat.add_0_r, Nat.eqb_refl. unpack.
        repeat split; try discriminate; eauto.
  - simpl. unfold triggerRefresh_after. simpl.
    rewrite Nat.add_0_r, Nat.eqb_refl. unpack.
    repeat split; try discriminate; eauto.
Qed.

Lemma update_refetch_witness :
  count is_put_send
        (trace (change_then_render (always_status 500) camera iso (VStr "400") 0 0)) = 1 /\
  (tolerated (always_status 500 0) = true ->
   outcome (change_then_render (always_status 500) camera iso (VStr "400") 0 0) = Ok tt /\
   count is_settings_fetch
         (trace (change_then_render (always_status 500) camera iso (VStr "400") 0 0)) = 1) /\
  (tolerated (always_status 500 0) = false ->
   (exists e,
       outcome (change_then_render (always_status 500) camera iso (VStr "400") 0 0)
       = Throw e) /\
   count is_settings_fetch
         (trace (change_then_render (always_status 500) camera iso (VStr "400") 0 0)) = 0).
Proof.
  apply (@update_refetch (always_status 500) camera iso (VStr "400") 0 0).
  reflexivity.
Defined.

(** Scenarios C and D of the spec. *)
Example scenario_C :
  outcome (change_then_render (always_status 500) camera iso (VStr "400") 0 0) = Ok tt /\
  count is_settings_fetch
        (trace (change_then_render (always_status 500) camera iso (VStr "400") 0 0)) = 1.
Proof. split; reflexivity. Qed.

Example scenario_D :
  outcome (change_then_render (always_status 404) camera iso (VStr "400") 0 0)
  = Throw (AxiosError
             (mkRequest PUT "/api/setting" []
                        (Some (cam_port camera, with_value iso (VStr "400"))))
             (Some 404%Z)) /\
  count is_settings_fetch
        (trace (change_then_render (always_status 404) camera iso (VStr "400") 0 0)) = 0.
Proof. split; reflexivity. Qed.

(** A failure without response reaches the caller as the [TypeError] of
    reading [status] on [undefined]. *)
Example update_without_response :
  outcome (change_then_render (fun _ => NetworkError) camera iso (VStr "400") 0 0)
  = Throw TypeError.
Proof. reflexivity. Qed.

(** *** Read-only settings *)

Lemma renderSetting_disabled setting e d :
  renderSetting setting = Some e ->
  control_disabled e = Some d ->
  d = truthy (readonly setting).
Proof.
  unfold renderSetting.
  repeat match goal with
         | |- context [match ?x with _ => _ end] => destruct x
         end;
    intros He Hd; try discriminate;
    injection He as <-; simpl in Hd; try discriminate;
    injection Hd as <-; reflexivity.
Qed.

(** C9. For a setting whose [readonly] is truthy the update callback
    returns at once, without any effect and without a request, whatever the
    type and the new value; nothing is fetched either; and every control that
    [renderSetting] renders for it is disabled. *)
Theorem readonly_rejected setting :
  truthy (readonly setting) = true ->
  (forall backend camera newVal n,
      onChange backend camera setting newVal n = (Ok tt, [], n)) /\
  (forall backend camera newVal triggerRefresh n,
      change_then_render backend camera setting newVal triggerRefresh n = (Ok tt, [], n)) /\
  (forall e d,
      renderSetting setting = Some e -> control_disabled e = Some d -> d = true).
Proof.
  intro Hro. split; [|split].
  - intros. unfold onChange. rewrite Hro. reflexivity.
  - intros. unfold change_then_render, onChange. rewrite Hro. simpl.
    unfold triggerRefresh_after. simpl. rewrite Nat.add_0_r, Nat.eqb_refl.
    reflexivity.
  - intros e d He Hd. rewrite <- Hro. eapply renderSetting_disabled; eassumption.
Qed.

Lemma readonly_rejected_witness :
  (forall backend camera newVal n,
      onChange backend camera (readonly_setting 1 "/main/status/serialnumber") newVal n
      = (Ok tt, [], n)) /\
  (forall backend camera newVal triggerRefresh n,
      change_then_render backend camera (readonly_setting 1 "/main/status/serialnumber")
                         newVal triggerRefresh n = (Ok tt, [], n)) /\
  (forall e d,
      renderSetting (readonly_setting 1 "/main/status/serialnumber") = Some e ->
      control_disabled e = Some d -> d = true).
Proof.
  apply (@readonly_rejected (readonly_setting 1 "/main/status/serialnumber")).
  reflexivity.
Defined.

(** *** Retries *)

Lemma attempt_sends_once backend req n :
  count is_send (trace (Axios.attempt backend req n)) = 1.
Proof.
  unfold Axios.attempt.
  destruct (backend n) as [st d|]; [destruct (Axios.validateStatus st)|]; reflexivity.
Qed.

Lemma retrying_sends backend cfg req :
  forall left n,
    1 <= count is_send (trace (Axios.retrying backend cfg left req n)) <= 1 + left /\
    (succeeds (backend n) = true ->
     count is_send (trace (Axios.retrying backend cfg left req n)) = 1).
Proof.
  induction left as [|k IH]; intro n; simpl;
    pose proof (attempt_sends_once backend req n) as Ha;
    assert (Hs : succeeds (backend n) = true ->
                 exists d t, Axios.attempt backend req n = (Ok d, t, S n)).
  1,3: (intro Hsucc; unfold Axios.attempt;
        destruct (backend n) as [st d|]; simpl in Hsucc; [|discriminate];
        rewrite Hsucc; eauto).
  - destruct (Axios.attempt backend req n) as [[[d|e] t] n']; unpack.
    + lia.
    + split; [lia|]. intro Hsucc. destruct (Hs Hsucc) as (d & t' & E). discriminate.
  - destruct (Axios.attempt backend req n) as [[[d|e] t] n']; unpack.
    + lia.
    + assert (Hno : succeeds (backend n) = true -> False).
      { intro Hsucc. destruct (Hs Hsucc) as (d & t' & E). discriminate. }
      destruct e as [r st|]; unpack; [|split; [lia | intro; exfalso; auto]].
      destruct (Axios.retryCondition cfg req st); unpack;
        [|split; [lia | intro; exfalso; auto]].
      destruct (IH n') as [IH1 _].
      destruct (Axios.retrying backend cfg k req n') as [[r' t'] n'']; unpack.
      rewrite CaptureRun.count_app. split; [lia | intro; exfalso; auto].
Qed.

Lemma retrying_accounting backend cfg req :
  forall left n,
    count is_send (trace (Axios.retrying backend cfg left req n)) <= 1 + left /\
    issued (Axios.retrying backend cfg left req n)
    = n + count is_send (trace (Axios.retrying backend cfg left req n)) /\
    (is_capture req = true ->
     count is_capture_send (trace (Axios.retrying backend cfg left req n))
     = count is_send (trace (Axios.retrying backend cfg left req n))).
Proof.
  assert (Hatt : forall n,
             exists r, Axios.attempt backend req n
                       = (r, [Send req; Recv (backend n)], S n)).
  { intro n. unfold Axios.attempt.
    destruct (backend n) as [st d|]; [destruct (Axios.validateStatus st)|]; eauto. }
  induction left as [|left IH]; intro n; simpl;
    destruct (Hatt n) as [r ->]; destruct r as [d|e]; unpack;
    try (unfold count; simpl; repeat split; try lia;
         intros ->; reflexivity).
  destruct e as [r st|]; unpack;
    [|unfold count; simpl; repeat split; try lia; intros ->; reflexivity].
  destruct (Axios.retryCondition cfg req st); unpack;
    [|unfold count; simpl; repeat split; try lia; intros ->; reflexivity].
  destruct (IH (S n)) as (H1 & H2 & H3).
  destruct (Axios.retrying backend cfg left req (S n)) as [[r' t'] n'']; unpack.
  unfold count in *. simpl. repeat split; try lia.
  intro Hc. rewrite Hc. simpl. rewrite (H3 Hc). reflexivity.
Qed.

(** C6, as the code has it.  In web/luum no retry policy is installed: the
    update callback sends exactly one request for an editable setting, a PUT,
    and none for a read-only one; its failure is thrown to the caller unless
    the status is 500, which the callback swallows.  The capture button sends
    exactly one request, the capture request, and its failure is thrown to the
    caller.  In web-simple the capture request goes through the axios instance
    on which [axiosRetry] was installed, like every read: with a port
    selected one call of [captureImage] sends capture requests only, at least
    one and at most 1 + 3, and exactly one when the first answer is a success;
    without a port it sends none. *)
Theorem writes_and_retries backend cameras camera setting newVal n :
  count is_send (trace (onChange backend camera setting newVal n))
  = (if truthy (readonly setting) then 0 else 1) /\
  count is_put_send (trace (onChange backend camera setting newVal n))
  = count is_send (trace (onChange backend camera setting newVal n)) /\
  (truthy (readonly setting) = false ->
   (tolerated (backend n) = false ->
    exists e, outcome (onChange backend camera setting newVal n) = Throw e) /\
   (tolerated (backend n) = true ->
    outcome (onChange backend camera setting newVal n) = Ok tt)) /\
  count is_send (trace (capture_click backend camera n)) = 1 /\
  count is_capture_send (trace (capture_click backend camera n)) = 1 /\
  (succeeds (backend n) = false ->
   exists e, outcome (capture_click backend camera n) = Throw e) /\
  (forall port,
      WebSimple.first_port cameras = Some port ->
      1 <= count is_send (trace (WebSimple.captureImage backend cameras n)) <= 1 + 3 /\
      count is_capture_send (trace (WebSimple.captureImage backend cameras n))
      = count is_send (trace (WebSimple.captureImage backend cameras n)) /\
      (succeeds (backend n) = true ->
       count is_send (trace (WebSimple.captureImage backend cameras n)) = 1 /\
       outcome (WebSimple.captureImage backend cameras n) = Ok tt)) /\
  (WebSimple.first_port cameras = None ->
   count is_send (trace (WebSimple.captureImage backend cameras n)) = 0).
Proof.
  split; [|split; [|split; [|split; [|split; [|split; [|split]]]]]].
  - unfold onChange. destruct (truthy (readonly setting)); [reflexivity|].
    unfold try_catch, bind, emit, Axios.put, Axios.request_with, Axios.attempt.
    simpl. destruct (backend n) as [st d|];
      [destruct (Axios.validateStatus st); [|destruct (st =? 500)%Z]|];
      reflexivity.
  - unfold onChange. destruct (truthy (readonly setting)); [reflexivity|].
    unfold try_catch, bind, emit, Axios.put, Axios.request_with, Axios.attempt.
    simpl. destruct (backend n) as [st d|];
      [destruct (Axios.validateStatus st); [|destruct (st =? 500)%Z]|];
      reflexivity.
  - intro Hro. unfold onChange. rewrite Hro.
    unfold try_catch, bind, emit, Axios.put, Axios.request_with, Axios.attempt, tolerated.
    simpl. destruct (backend n) as [st d|];
      [destruct (Axios.validateStatus st); [|destruct (st =? 500)%Z]|];
      unpack; split; intro H; try discriminate; eauto.
  - unfold capture_click, bind, Axios.get, Axios.request_with, Axios.attempt.
    destruct (backend n) as [st d|]; [destruct (Axios.validateStatus st)|]; reflexivity.
  - unfold capture_click, bind, Axios.get, Axios.request_with, Axios.attempt.
    destruct (backend n) as [st d|]; [destruct (Axios.validateStatus st)|]; reflexivity.
  - intro Hf. unfold capture_click, bind, Axios.get, Axios.request_with, Axios.attempt.
    destruct (backend n) as [st d|]; simpl in Hf; [rewrite Hf|]; unpack; eauto.
  - intros port Hport. unfold WebSimple.captureImage. rewrite Hport.
    unfold bind, Axios.get, Axios.request_with, WebSimple.axios_retry. simpl Axios.retries.
    destruct (retrying_sends backend
                (Axios.mkRetry 3 Axios.isNetworkOrIdempotentRequestError)
                (mkRequest GET "/api/capture/image" [("port"%string, port)] None) 3 n)
      as [Hb Hone].
    destruct (@retrying_accounting backend
                (Axios.mkRetry 3 Axios.isNetworkOrIdempotentRequestError)
                (mkRequest GET "/api/capture/image" [("port"%string, port)] None) 3 n)
      as (_ & _ & Hcap).
    specialize (Hcap eq_refl).
    assert (Hok : succeeds (backend n) = true ->
                  exists d t k,
                    Axios.retrying backend
                      (Axios.mkRetry 3 Axios.isNetworkOrIdempotentRequestError) 3
                      (mkRequest GET "/api/capture/image" [("port"%string, port)] None) n
                    = (Ok d, t, k)).
    { intro Hs. simpl. unfold Axios.attempt.
      destruct (backend n) as [st d|]; simpl in Hs; [|discriminate].
      rewrite Hs. eauto. }
    destruct (Axios.retrying _ _ _ _ _) as [[[d|e] t] n']; unpack;
      rewrite ?app_nil_r; (split; [exact Hb|]); (split; [exact Hcap|]);
      intro Hs; (split; [exact (Hone Hs)|]).
    + reflexivity.
    + destruct (Hok Hs) as (d' & t' & k & E). discriminate.
  - intro Hnone. unfold WebSimple.captureImage. rewrite Hnone. reflexivity.
Qed.

Lemma writes_and_retries_witness :
  count is_send (trace (onChange always_ok camera iso (VStr "400") 0))
  = (if truthy (readonly iso) then 0 else 1) /\
  count is_put_send (trace (onChange always_ok camera iso (VStr "400") 0))
  = count is_send (trace (onChange always_ok camera iso (VStr "400") 0)) /\
  (truthy (readonly iso) = false ->
   (tolerated (always_ok 0) = false ->
    exists e, outcome (onChange always_ok camera iso (VStr "400") 0) = Throw e) /\
   (tolerated (always_ok 0) = true ->
    outcome (onChange always_ok camera iso (VStr "400") 0) = Ok tt)) /\
  count is_send (trace (capture_click always_ok camera 0)) = 1 /\
  count is_capture_send (trace (capture_click always_ok camera 0)) = 1 /\
  (succeeds (always_ok 0) = false ->
   exists e, outcome (capture_click always_ok camera 0) = Throw e) /\
  (forall port,
      WebSimple.first_port one_camera = Some port ->
      1 <= count is_send (trace (WebSimple.captureImage always_ok one_camera 0)) <= 1 + 3 /\
      count is_capture_send (trace (WebSimple.captureImage always_ok one_camera 0))
      = count is_send (trace (WebSimple.captureImage always_ok one_camera 0)) /\
      (succeeds (always_ok 0) = true ->
       count is_send (trace (WebSimple.captureImage always_ok one_camera 0)) = 1 /\
       outcome (WebSimple.captureImage always_ok one_camera 0) = Ok tt)) /\
  (WebSimple.first_port one_camera = None ->
   count is_send (trace (WebSimple.captureImage always_ok one_camera 0)) = 0).
Proof.
  exact (@writes_and_retries always_ok one_camera camera iso (VStr "400") 0).
Defined.

(** The bounds are reached: a backend that always answers 503 receives the
    capture request four times from one call of [captureImage], which then
    throws; a setting update answered with 500 returns as if it had
    succeeded, one answered with 404 throws. *)
Example capture_sent_four_times :
  count is_capture_send
        (trace (WebSimple.captureImage (always_status 503) one_camera 0)) = 4 /\
  (exists e, outcome (WebSimple.captureImage (always_status 503) one_camera 0) = Throw e) /\
  outcome (onChange (always_status 500) camera iso (VStr "400") 0) = Ok tt /\
  (exists e, outcome (onChange (always_status 404) camera iso (VStr "400") 0) = Throw e).
Proof. repeat split; eexists; reflexivity. Qed.

(** C6, as the spec states it, fails in web-simple: when the first answer
    to the capture request is lost, one call of [captureImage] sends the
    request a second time and returns as if nothing had happened. *)
Lemma capture_is_retried :
  outcome (WebSimple.captureImage first_lost one_camera 0) = Ok tt /\
  count is_capture_send (trace (WebSimple.captureImage first_lost one_camera 0)) = 2.
Proof. split; reflexivity. Qed.


End Settings.

(* ================================================================= *)
(** * axios-retry: what a retried request does *)

Module Retry.

Section Policy.
Variable backend : nat -> response.
Variable cfg : Axios.RetryConfig.
Variable req : request.

Lemma attempt_success n st d :
  backend n = HttpResponse st d -> Axios.validateStatus st = true ->
  Axios.attempt backend req n = (Ok d, [Send req; Recv (HttpResponse st d)], S n).
Proof. intros Hb Hv. unfold Axios.attempt. rewrite Hb, Hv. reflexivity. Qed.

Lemma attempt_failure n :
  succeeds (backend n) = false ->
  exists st,
    Axios.attempt backend req n
    = (Throw (AxiosError req st), [Send req; Recv (backend n)], S n) /\
    retryable cfg req (backend n) = Axios.retryCondition cfg req st.
Proof.
  intro Hf. unfold Axios.attempt, retryable.
  destruct (backend n) as [st d|]; simpl in Hf.
  - rewrite Hf. exists (Some st). split; reflexivity.
  - exists None. split; reflexivity.
Qed.

Lemma retryable_fails r : retryable cfg req r = true -> succeeds r = false.
Proof.
  destruct r as [st d|]; simpl; [|reflexivity].
  destruct (Axios.validateStatus st); [discriminate | reflexivity].
Qed.

(** After [k] failures that the policy retries, a success is returned as if
    nothing had failed. *)
Lemma retrying_recovers k :
  forall left n st d,
    k <= left ->
    (forall j, j < k -> retryable cfg req (backend (n + j)) = true) ->
    backend (n + k) = HttpResponse st d -> Axios.validateStatus st = true ->
    exists t,
      Axios.retrying backend cfg left req n = (Ok d, t, n + k + 1) /\
      count is_send t = k + 1 /\
      Forall (fun e => is_io e = true) t /\ count is_console_error t = 0.
Proof.
  induction k as [|k IH]; intros left n st d Hk Hfail Hb Hv.
  - rewrite Nat.add_0_r in Hb.
    exists [Send req; Recv (HttpResponse st d)].
    replace (n + 0 + 1) with (S n) by lia.
    split; [|repeat split; repeat constructor].
    destruct left; simpl; rewrite (@attempt_success n st d Hb Hv); reflexivity.
  - destruct left as [|left]; [lia|].
    pose proof (Hfail 0 ltac:(lia)) as H0. rewrite Nat.add_0_r in H0.
    assert (Hf0 : succeeds (backend n) = false) by (apply (@retryable_fails (backend n) H0)).
    destruct (@attempt_failure n Hf0) as (st0 & Ha & Hc).
    destruct (IH left (S n) st d ltac:(lia)) as (t & Ht & Hs & Hio & Hce).
    + intros j Hj. replace (S n + j) with (n + S j) by lia. apply Hfail. lia.
    + replace (S n + k) with (n + S k) by lia. exact Hb.
    + exact Hv.
    + exists ([Send req; Recv (backend n)] ++ t).
      simpl Axios.retrying. rewrite Ha. rewrite <- Hc, H0. rewrite Ht.
      replace (S n + k + 1) with (n + S k + 1) by lia.
      split; [reflexivity|]. unfold count in *. simpl.
      repeat split; try lia; try exact Hce; repeat constructor; exact Hio.
Qed.

(** When every one of the [1 + left] answers is a failure the policy retries,
    the last one is thrown. *)
Lemma retrying_exhausted :
  forall left n,
    (forall j, j <= left -> retryable cfg req (backend (n + j)) = true) ->
    exists e t,
      Axios.retrying backend cfg left req n = (Throw e, t, n + left + 1) /\
      count is_send t = left + 1 /\ Forall (fun e => is_io e = true) t /\
      count is_console_error t = 0.
Proof.
  induction left as [|left IH]; intros n Hfail;
    pose proof (Hfail 0 ltac:(lia)) as H0; rewrite Nat.add_0_r in H0;
    assert (Hf0 : succeeds (backend n) = false)
      by (apply (@retryable_fails (backend n) H0));
    destruct (@attempt_failure n Hf0) as (st0 & Ha & Hc).
  - exists (AxiosError req st0), [Send req; Recv (backend n)].
    simpl. rewrite Ha. replace (n + 0 + 1) with (S n) by lia.
    repeat split; repeat constructor.
  - destruct (IH (S n)) as (e & t & Ht & Hs & Hio & Hce).
    { intros j Hj. replace (S n + j) with (n + S j) by lia. apply Hfail. lia. }
    exists e, ([Send req; Recv (backend n)] ++ t).
    simpl Axios.retrying. rewrite Ha, <- Hc, H0, Ht.
    replace (S n + left + 1) with (n + S left + 1) by lia.
    split; [reflexivity|]. unfold count in *. simpl.
    repeat split; try lia; try exact Hce; repeat constructor; exact Hio.
Qed.

(** A failure the policy does not retry is thrown at once, whatever is
    left. *)
Lemma retrying_refused k :
  forall left n,
    k <= left ->
    (forall j, j < k -> retryable cfg req (backend (n + j)) = true) ->
    succeeds (backend (n + k)) = false ->
    retryable cfg req (backend (n + k)) = false ->
    exists e t,
      Axios.retrying backend cfg left req n = (Throw e, t, n + k + 1) /\
      count is_send t = k + 1 /\ Forall (fun e => is_io e = true) t /\
      count is_console_error t = 0.
Proof.
  induction k as [|k IH]; intros left n Hk Hfail Hf Hr.
  - rewrite Nat.add_0_r in Hf, Hr.
    destruct (@attempt_failure n Hf) as (st0 & Ha & Hc).
    exists (AxiosError req st0), [Send req; Recv (backend n)].
    replace (n + 0 + 1) with (S n) by lia.
    split; [|repeat split; repeat constructor].
    destruct left; simpl; rewrite Ha; [reflexivity|].
    rewrite <- Hc, Hr. reflexivity.
  - destruct left as [|left]; [lia|].
    pose proof (Hfail 0 ltac:(lia)) as H0. rewrite Nat.add_0_r in H0.
    assert (Hf0 : succeeds (backend n) = false) by (apply (@retryable_fails (backend n) H0)).
    destruct (@attempt_failure n Hf0) as (st0 & Ha & Hc).
    destruct (IH left (S n) ltac:(lia)) as (e & t & Ht & Hs & Hio & Hce).
    + intros j Hj. replace (S n + j) with (n + S j) by lia. apply Hfail. lia.
    + replace (S n + k) with (n + S k) by lia. exact Hf.
    + replace (S n + k) with (n + S k) by lia. exact Hr.
    + exists e, ([Send req; Recv (backend n)] ++ t).
      simpl Axios.retrying. rewrite Ha, <- Hc, H0, Ht.
      replace (S n + k + 1) with (n + S k + 1) by lia.
      split; [reflexivity|]. unfold count in *. simpl.
      repeat split; try lia; try exact Hce; repeat constructor; exact Hio.
Qed.
End Policy.

End Retry.

(* ================================================================= *)
(** * web-simple: polling the backend *)

Module Polling.
Import WebSimple Scenario.

Lemma transient_retryable req r :
  req_method req = GET ->
  retryable source_policy req r = transient r.
Proof.
  intro Hm. destruct r as [st d|]; simpl; [|reflexivity].
  rewrite Hm. unfold Axios.validateStatus.
  destruct (500 <=? st)%Z eqn:H5; simpl; [|apply andb_false_r].
  destruct (st <=? 599)%Z eqn:H6; simpl; [|apply andb_false_r].
  apply Z.leb_le in H5.
  replace (st <? 300)%Z with false by (symmetry; apply Z.ltb_ge; lia).
  rewrite andb_false_r. reflexivity.
Qed.


(** X1. With a camera selected, the refresh of the file hierarchy survives
    up to three consecutive transient failures (a lost connection or a 5xx
    answer): the request is sent once more after each, the data of the first
    success is handed to [setCameraFiles], and nothing is logged as an
    error. *)
Theorem hierarchy_survives_transient_failures backend cameras port k st d n :
  first_port cameras = Some port ->
  k <= 3 ->
  (forall j, j < k -> transient (backend (n + j)) = true) ->
  backend (n + k) = HttpResponse st d ->
  Axios.validateStatus st = true ->
  outcome (updateCameraFiles backend cameras n) = Ok tt /\
  issued (updateCameraFiles backend cameras n) = n + k + 1 /\
  count is_send (trace (updateCameraFiles backend cameras n)) = k + 1 /\
  count is_console_error (trace (updateCameraFiles backend cameras n)) = 0 /\
  exists t0, trace (updateCameraFiles backend cameras n) = t0 ++ [SetCameraFiles d].
Proof.
  intros Hport Hk Hfail Hb Hv.
  destruct (@Retry.retrying_recovers backend source_policy (hierarchy_request port)
              k 3 n st d Hk) as (t & Ht & Hs & Hio & Hce); auto.
  { intros j Hj. rewrite transient_retryable by reflexivity. apply Hfail. exact Hj. }
  unfold updateCameraFiles, catch_console, try_catch, bind. rewrite Hport.
  unfold Axios.get, Axios.request_with, axios_retry. simpl Axios.retries.
  change (mkRequest GET "/api/hierarchy" [("port"%string, port)] None)
    with (hierarchy_request port).
  change (Axios.mkRetry 3 Axios.isNetworkOrIdempotentRequestError) with source_policy.
  unfold emit. cbv beta iota. rewrite Ht. cbv beta iota. unpack. unfold count in *.
  simpl. rewrite ?filter_app, ?length_app. simpl.
  repeat split; try lia.
  exists (ConsoleLog "updating camera files" :: t). reflexivity.
Qed.

Lemma hierarchy_survives_transient_failures_witness :
  outcome (updateCameraFiles (lost_then 2 (FolderData burst)) one_camera 0) = Ok tt /\
  issued (updateCameraFiles (lost_then 2 (FolderData burst)) one_camera 0) = 0 + 2 + 1 /\
  count is_send (trace (updateCameraFiles (lost_then 2 (FolderData burst)) one_camera 0))
  = 2 + 1 /\
  count is_console_error
        (trace (updateCameraFiles (lost_then 2 (FolderData burst)) one_camera 0)) = 0 /\
  exists t0,
    trace (updateCameraFiles (lost_then 2 (FolderData burst)) one_camera 0)
    = t0 ++ [SetCameraFiles (FolderData burst)].
Proof.
  apply (@hierarchy_survives_transient_failures
           (lost_then 2 (FolderData burst)) one_camera "usb:001,004" 2 200
           (FolderData burst) 0).
  - reflexivity.
  - lia.
  - intros j Hj. destruct j as [|[|j]]; [reflexivity | reflexivity | lia].
  - reflexivity.
  - reflexivity.
Defined.

(** X2. With a camera selected, the refresh gives up at the first failure
    that is not transient, or at the fourth transient one in a row: it has
    then sent one request per failure, logs one error, and leaves the file
    hierarchy as it was ([setCameraFiles] is not called). *)
Theorem hierarchy_gives_up backend cameras port k n :
  first_port cameras = Some port ->
  k <= 3 ->
  (forall j, j < k -> transient (backend (n + j)) = true) ->
  succeeds (backend (n + k)) = false ->
  (k = 3 \/ transient (backend (n + k)) = false) ->
  outcome (updateCameraFiles backend cameras n) = Ok tt /\
  issued (updateCameraFiles backend cameras n) = n + k + 1 /\
  count is_send (trace (updateCameraFiles backend cameras n)) = k + 1 /\
  count is_console_error (trace (updateCameraFiles backend cameras n)) = 1 /\
  count is_set_files (trace (updateCameraFiles backend cameras n)) = 0.
Proof.
  intros Hport Hk Hfail Hf Hstop.
  assert (Hthrow : exists e t,
             Axios.retrying backend source_policy 3 (hierarchy_request port) n
             = (Throw e, t, n + k + 1) /\
             count is_send t = k + 1 /\ Forall (fun e => is_io e = true) t /\
             count is_console_error t = 0).
  { destruct (transient (backend (n + k))) eqn:Htr.
    - destruct Hstop as [-> | Habs]; [|discriminate].
      apply Retry.retrying_exhausted.
      intros j Hj. rewrite transient_retryable by reflexivity.
      destruct (Nat.eq_dec j 3) as [-> | Hne]; [exact Htr | apply Hfail; lia].
    - apply Retry.retrying_refused; auto.
      + intros j Hj. rewrite transient_retryable by reflexivity. apply Hfail. exact Hj.
      + rewrite transient_retryable by reflexivity. exact Htr. }
  destruct Hthrow as (e & t & Ht & Hs & Hio & Hce).
  unfold updateCameraFiles, catch_console, try_catch, bind. rewrite Hport.
  unfold Axios.get, Axios.request_with, axios_retry. simpl Axios.retries.
  change (mkRequest GET "/api/hierarchy" [("port"%string, port)] None)
    with (hierarchy_request port).
  change (Axios.mkRetry 3 Axios.isNetworkOrIdempotentRequestError) with source_policy.
  unfold emit. cbv beta iota. rewrite Ht. cbv beta iota. unpack. unfold count in *.
  simpl. rewrite ?filter_app, ?length_app. simpl.
  assert (Hsf : List.length (filter is_set_files t) = 0).
  { clear - Hio. induction Hio as [|x l Hx Hl IH]; [reflexivity|].
    simpl. destruct x; simpl in *; try discriminate; exact IH. }
  repeat split; lia.
Qed.

Lemma hierarchy_gives_up_witness :
  outcome (updateCameraFiles (always_status 404) one_camera 0) = Ok tt /\
  issued (updateCameraFiles (always_status 404) one_camera 0) = 0 + 0 + 1 /\
  count is_send (trace (updateCameraFiles (always_status 404) one_camera 0)) = 0 + 1 /\
  count is_console_error (trace (updateCameraFiles (always_status 404) one_camera 0)) = 1 /\
  count is_set_files (trace (updateCameraFiles (always_status 404) one_camera 0)) = 0.
Proof.
  apply (@hierarchy_gives_up (always_status 404) one_camera "usb:001,004" 0 0).
  - reflexivity.
  - lia.
  - intros j Hj. lia.
  - reflexivity.
  - right. reflexivity.
Defined.


End Polling.

(* ================================================================= *)
(** * web-simple: the countdown overlay *)

Module Overlay.
Import WebSimple Monitor Scenario.

Lemma Qeq_bool_false (x y : Q) : ~ (x == y)%Q -> Qeq_bool x y = false.
Proof.
  intro H. destruct (Qeq_bool x y) eqn:E; [|reflexivity].
  apply Qeq_bool_iff in E. contradiction.
Qed.

(** With a total that is not zero, dividing and multiplying by it cancel. *)
Lemma countdown_label_shown (T p : Q) :
  ~ (T == 0)%Q ->
  countdown_label T p = Some (Z.max 0 (Qceiling ((T - p) / 1000))).
Proof.
  intro HT. unfold countdown_label. rewrite (Qeq_bool_false HT).
  do 2 f_equal. apply Qceiling_comp. field. exact HT.
Qed.

(** X4. The overlay's number as the code computes it, in double precision.
    With the source's constants the numbers shown in the course of a phase
    count down the whole seconds left, rounded up: 5 at the reset of the
    initial phase and 5, 4, 4, 3, 3, 2, 2, 1, 1, 0 after its ten progress
    updates; 3 at the reset of a subsequent phase and 3, 3, 3, 2, 2, 2, 1, 1,
    1, 0 after its updates; these are the numbers of the exact expression.
    With a total of 0 no overlay is shown.  The agreement is one of these
    constants, not of the expression: dividing the progress by the total and
    multiplying by it again does not give the progress back in doubles, and
    for a total of 2023 and a progress of 1023 the code shows 2 where one
    second is left. *)
Theorem countdown_label_in_double_precision :
  countdown_label_f64 5000 0 = Some (Number 5) /\
  map (fun i => countdown_label_f64 5000 (progress_f64 5000 10 i)) (seq 0 10)
  = map (fun n => Some (Number n)) [5; 4; 4; 3; 3; 2; 2; 1; 1; 0]%Z /\
  countdown_label_f64 3000 0 = Some (Number 3) /\
  map (fun i => countdown_label_f64 3000 (progress_f64 3000 10 i)) (seq 0 10)
  = map (fun n => Some (Number n)) [3; 3; 3; 2; 2; 2; 1; 1; 1; 0]%Z /\
  map (fun i => option_map Number (countdown_label 5000 (progress_after 5000 10 (S i))))
      (seq 0 10)
  = map (fun i => countdown_label_f64 5000 (progress_f64 5000 10 i)) (seq 0 10) /\
  map (fun i => option_map Number (countdown_label 3000 (progress_after 3000 10 (S i))))
      (seq 0 10)
  = map (fun i => countdown_label_f64 3000 (progress_f64 3000 10 i)) (seq 0 10) /\
  countdown_label_f64 0 0 = None /\
  countdown_label_f64 2023 1023 = Some (Number 2) /\
  countdown_label 2023 1023 = Some 1%Z.
Proof. repeat split; vm_compute; reflexivity. Qed.

(** *** The state a run leaves behind *)

Lemma run_after (t : list event) :
  forall s, run (fun s e => Some (Ui.step s e)) s t = Some (fold_left Ui.step t s).
Proof. induction t as [|e t IH]; intro s; simpl; [reflexivity | apply IH]. Qed.

Section AfterRun.
Variable backend : nat -> response.
Variable cfg : Config.
Variable cameras : option (list Camera).

Let G := SPINNER_GRANULARITY cfg.
Let step := fun (s : Ui.state) (e : event) => Some (Ui.step s e).

(** Where a run may fail: at a capture step, after the samples of the
    countdown of the initial or of a subsequent phase. *)
Let at_capture (s : Ui.state) : Prop :=
  Ui.errors s = 0 /\ Ui.fileUpdates s = 0 /\
  (Ui.countdownTotal s = PHOTO_TIME_INITIAL cfg \/
   Ui.countdownTotal s = PHOTO_TIME_SUBSEQUENT cfg) /\
  Ui.countdownProgress s = progress_after (Ui.countdownTotal s) G G.

Lemma ui_countdown D :
  triple step (Ui.mkState 0 D 0 0)
    (for_loop G 0 (fun i =>
       sleep (D / num G) ;;
       emit (SetCountdownProgress (D * ((num i + 1) / num G)))))
    (Ui.mkState (progress_after D G G) D 0 0) at_capture.
Proof.
  pose proof (@triple_for_loop _ step
                (fun i => Ui.mkState (progress_after D G i) D 0 0)
                (fun i => sleep (D / num G) ;;
                          emit (SetCountdownProgress (D * ((num i + 1) / num G))))
                at_capture G) as H.
  assert (Hle : G + 0 <= G) by lia.
  specialize (fun Hbody => H Hbody G 0 Hle). cbv beta in H.
  rewrite Nat.add_0_r in H. apply H.
  intros i _. emit_step. emit_last.
Qed.

Lemma ui_capture s :
  at_capture s -> triple step s (captureImage backend cameras) s at_capture.
Proof.
  intro Hs.
  pose proof (@CaptureRun.triple_captureImage _ step backend cameras s s at_capture) as H.
  destruct (first_port cameras); apply H; try (intros; reflexivity); exact Hs.
Qed.

Lemma ui_asyncEffect trigger :
  trigger <> 0 ->
  triple step Ui.initial (asyncEffect backend cfg cameras trigger)
         (Ui.mkState 0 0 1 0) at_capture.
Proof.
  intro Ht. unfold asyncEffect.
  destruct (Nat.eqb trigger 0) eqn:E; [apply Nat.eqb_eq in E; contradiction|].
  emit_step. emit_step.
  eapply triple_bind; [apply ui_countdown | intros _].
  eapply triple_bind.
  { apply ui_capture. repeat split; auto. }
  intros _. emit_step.
  eapply triple_bind.
  { pose proof (@triple_for_loop _ step
                  (fun j => match j with
                            | O => Ui.mkState
                                     (progress_after (PHOTO_TIME_INITIAL cfg) G G)
                                     (PHOTO_TIME_INITIAL cfg) 0 0
                            | S _ => Ui.mkState
                                       (progress_after (PHOTO_TIME_SUBSEQUENT cfg) G G)
                                       (PHOTO_TIME_SUBSEQUENT cfg) 0 0
                            end)) as H.
    simpl in H. eapply H with (bound := (NUM_PHOTOS cfg - 1) + 0); [|lia].
    intros j _.
    eapply triple_bind
      with (s1 := Ui.mkState 0 (match j with
                                | O => PHOTO_TIME_INITIAL cfg
                                | S _ => PHOTO_TIME_SUBSEQUENT cfg
                                end) 0 0).
    { apply triple_emit. destruct j; reflexivity. }
    intros _. emit_step.
    eapply triple_bind; [apply ui_countdown | intros _].
    eapply triple_bind.
    { apply ui_capture. repeat split; auto. }
    intros _. emit_last. }
  intros _.
  destruct (NUM_PHOTOS cfg - 1 + 0); emit_step; emit_step; emit_step; emit_last.
Qed.

Lemma ui_photo_run trigger :
  trigger <> 0 ->
  Ui.after (trace (photo_run backend cfg cameras trigger)) = Ui.mkState 0 0 1 0 \/
  exists s,
    at_capture s /\
    Ui.after (trace (photo_run backend cfg cameras trigger))
    = Ui.mkState (Ui.countdownProgress s) (Ui.countdownTotal s) 0 1.
Proof.
  intro Ht.
  pose proof (ui_asyncEffect Ht 0) as H.
  unfold photo_run, catch_console, try_catch, Ui.after.
  destruct (asyncEffect backend cfg cameras trigger 0) as [[[a|e] t] n']; unpack.
  - left. unfold step in H. rewrite run_after in H. injection H as H. exact H.
  - right. destruct H as (s & Hrun & Hs). exists s. split; [exact Hs|].
    unfold step in Hrun. rewrite run_after in Hrun. injection Hrun as Hrun.
    rewrite fold_left_app, Hrun. simpl.
    destruct Hs as (He & Hf & _). rewrite He, Hf. reflexivity.
Qed.
End AfterRun.

(** X5. A triggered run ends in one of two ways.  Either it completes: no
    error is logged, the file refresh is signalled once, and the countdown
    values are back at 0, so that the overlay is gone.  Or a capture request
    fails for good: one error is logged, no file refresh is signalled, and
    the countdown stays where it was, at the total of the initial or of a
    subsequent phase with the progress equal to it, so that the overlay stays
    on the screen showing 0. *)
Theorem run_completes_or_leaves_overlay backend cfg cameras trigger :
  trigger <> 0 ->
  1 <= SPINNER_GRANULARITY cfg ->
  (Ui.errors (Ui.after (trace (photo_run backend cfg cameras trigger))) = 0 /\
   Ui.fileUpdates (Ui.after (trace (photo_run backend cfg cameras trigger))) = 1 /\
   Ui.countdownTotal (Ui.after (trace (photo_run backend cfg cameras trigger))) = 0%Q /\
   Ui.countdownProgress (Ui.after (trace (photo_run backend cfg cameras trigger))) = 0%Q /\
   countdown_label 0 0 = None) \/
  (Ui.errors (Ui.after (trace (photo_run backend cfg cameras trigger))) = 1 /\
   Ui.fileUpdates (Ui.after (trace (photo_run backend cfg cameras trigger))) = 0 /\
   (Ui.countdownTotal (Ui.after (trace (photo_run backend cfg cameras trigger)))
    = PHOTO_TIME_INITIAL cfg \/
    Ui.countdownTotal (Ui.after (trace (photo_run backend cfg cameras trigger)))
    = PHOTO_TIME_SUBSEQUENT cfg) /\
   (Ui.countdownProgress (Ui.after (trace (photo_run backend cfg cameras trigger)))
    == Ui.countdownTotal (Ui.after (trace (photo_run backend cfg cameras trigger))))%Q /\
   (~ (Ui.countdownTotal (Ui.after (trace (photo_run backend cfg cameras trigger))) == 0)%Q ->
    countdown_label
      (Ui.countdownTotal (Ui.after (trace (photo_run backend cfg cameras trigger))))
      (Ui.countdownProgress (Ui.after (trace (photo_run backend cfg cameras trigger))))
    = Some 0%Z)).
Proof.
  intros Ht HG.
  destruct (@ui_photo_run backend cfg cameras trigger Ht)
    as [-> | (s & (He & Hf & HT & Hp) & ->)].
  - left. repeat split.
  - right. simpl.
    assert (Hpt : (Ui.countdownProgress s == Ui.countdownTotal s)%Q).
    { rewrite Hp. destruct (SPINNER_GRANULARITY cfg) as [|g] eqn:Eg; [lia|].
      simpl. apply CaptureRun.progress_final. reflexivity. }
    repeat split; auto.
    intro Hnz. rewrite (countdown_label_shown _ Hnz). do 2 f_equal.
    setoid_replace ((Ui.countdownTotal s - Ui.countdownProgress s) / 1000)%Q with 0%Q.
    + reflexivity.
    + rewrite Hpt. field.
Qed.

Lemma run_completes_or_leaves_overlay_witness :
  (Ui.errors (Ui.after (trace (photo_run (always_status 404) source_config one_camera 1)))
   = 0 /\
   Ui.fileUpdates (Ui.after (trace (photo_run (always_status 404) source_config one_camera 1)))
   = 1 /\
   Ui.countdownTotal (Ui.after (trace (photo_run (always_status 404) source_config one_camera 1)))
   = 0%Q /\
   Ui.countdownProgress
     (Ui.after (trace (photo_run (always_status 404) source_config one_camera 1)))
   = 0%Q /\
   countdown_label 0 0 = None) \/
  (Ui.errors (Ui.after (trace (photo_run (always_status 404) source_config one_camera 1)))
   = 1 /\
   Ui.fileUpdates (Ui.after (trace (photo_run (always_status 404) source_config one_camera 1)))
   = 0 /\
   (Ui.countdownTotal (Ui.after (trace (photo_run (always_status 404) source_config one_camera 1)))
    = PHOTO_TIME_INITIAL source_config \/
    Ui.countdownTotal (Ui.after (trace (photo_run (always_status 404) source_config one_camera 1)))
    = PHOTO_TIME_SUBSEQUENT source_config) /\
   (Ui.countdownProgress
      (Ui.after (trace (photo_run (always_status 404) source_config one_camera 1)))
    == Ui.countdownTotal
         (Ui.after (trace (photo_run (always_status 404) source_config one_camera 1))))%Q /\
   (~ (Ui.countdownTotal
         (Ui.after (trace (photo_run (always_status 404) source_config one_camera 1))) == 0)%Q ->
    countdown_label
      (Ui.countdownTotal
         (Ui.after (trace (photo_run (always_status 404) source_config one_camera 1))))
      (Ui.countdownProgress
         (Ui.after (trace (photo_run (always_status 404) source_config one_camera 1))))
    = Some 0%Z)).
Proof.
  apply (@run_completes_or_leaves_overlay (always_status 404) source_config one_camera 1).
  - discriminate.
  - simpl. lia.
Defined.

(** The run of the witness is of the second kind. *)
Example failed_run_leaves_overlay :
  Ui.errors (Ui.after (trace (photo_run (always_status 404) source_config one_camera 1))) = 1 /\
  Ui.countdownTotal (Ui.after (trace (photo_run (always_status 404) source_config one_camera 1)))
  = 5000%Q.
Proof. split; reflexivity. Qed.


End Overlay.

(* ================================================================= *)
(** * web-simple: the requests of a run, whatever the backend answers *)

Module Requests.
Import WebSimple.

Section Bound.
Variable backend : nat -> response.
Variable cfg : Config.
Variable cameras : option (list Camera).

(** [within b m]: [m] sends at most [b] requests, all of them capture
    requests, and counts each of them. *)
Let within (b : nat) (A : Type) (m : M A) : Prop :=
  forall n,
    count is_send (trace (m n)) <= b /\
    count is_capture_send (trace (m n)) = count is_send (trace (m n)) /\
    issued (m n) = n + count is_send (trace (m n)).

Lemma within_ret A (a : A) : within 0 (ret a).
Proof. intro n. unfold count. unpack. repeat split; lia. Qed.

Lemma within_emit e : is_send e = false -> within 0 (emit e).
Proof.
  intros He n. unfold count. unpack.
  assert (Hc : is_capture_send e = false) by (destruct e; try reflexivity; discriminate).
  rewrite He, Hc. simpl. repeat split; lia.
Qed.

Lemma within_bind A B (m : M A) (f : A -> M B) b1 b2 :
  within b1 m -> (forall a, within b2 (f a)) -> within (b1 + b2) (bind m f).
Proof.
  intros Hm Hf n. unfold bind.
  destruct (Hm n) as (H1 & H2 & H3).
  destruct (m n) as [[[a|e] t] n']; unpack.
  - destruct (Hf a n') as (H4 & H5 & H6).
    destruct (f a n') as [[r t'] n'']; unpack.
    rewrite !CaptureRun.count_app. repeat split; lia.
  - repeat split; lia.
Qed.

Lemma within_weaken A (m : M A) b b' : b <= b' -> within b m -> within b' m.
Proof.
  intros Hle H n. destruct (H n) as (H1 & H2 & H3).
  repeat split; [lia | exact H2 | exact H3].
Qed.

Lemma within_for_loop (body : nat -> M unit) b :
  (forall i, within b (body i)) ->
  forall cnt i, within (cnt * b) (for_loop cnt i body).
Proof.
  intros Hb cnt. induction cnt as [|c IH]; intro i; simpl.
  - apply within_ret.
  - apply within_bind; [apply Hb | intros _; apply IH].
Qed.

Lemma within_captureImage : within 4 (captureImage backend cameras).
Proof.
  unfold captureImage. destruct (first_port cameras) as [port|].
  - intro n.
    destruct (@Settings.retrying_accounting backend source_policy (capture_request port) 3 n)
      as (H1 & H2 & H3).
    specialize (H3 eq_refl).
    unfold bind, Axios.get, Axios.request_with, axios_retry. simpl Axios.retries.
    change (mkRequest GET "/api/capture/image" [("port"%string, port)] None)
      with (capture_request port).
    change (Axios.mkRetry 3 Axios.isNetworkOrIdempotentRequestError) with source_policy.
    destruct (Axios.retrying backend source_policy 3 (capture_request port) n)
      as [[[d|e] t] n']; unpack; rewrite ?app_nil_r; repeat split; lia.
  - intro n. unfold count. unpack. repeat split; lia.
Qed.

Lemma within_asyncEffect trigger :
  within (4 + (NUM_PHOTOS cfg - 1) * 4) (asyncEffect backend cfg cameras trigger).
Proof.
  unfold asyncEffect. destruct (Nat.eqb trigger 0).
  { intro n. unfold count. unpack. repeat split; lia. }
  apply within_weaken
    with (b := 0 + (0 + (0 + (4 + (0 + ((NUM_PHOTOS cfg - 1) * 4 + 0))))));
    [lia|].
  apply (@within_bind _ _ _ _ 0 _); [apply within_emit; reflexivity | intros _].
  apply (@within_bind _ _ _ _ 0 _); [apply within_emit; reflexivity | intros _].
  apply (@within_bind _ _ _ _ 0 _).
  { replace 0 with (SPINNER_GRANULARITY cfg * 0) by lia.
    apply within_for_loop. intro i.
    apply (@within_bind _ _ _ _ 0 0); [apply within_emit; reflexivity | intros _].
    apply within_emit; reflexivity. }
  intros _.
  apply (@within_bind _ _ _ _ 4 _); [apply within_captureImage | intros _].
  apply (@within_bind _ _ _ _ 0 _); [apply within_emit; reflexivity | intros _].
  apply (@within_bind _ _ _ _ ((NUM_PHOTOS cfg - 1) * 4) 0).
  { apply within_for_loop. intro j.
    apply (@within_bind _ _ _ _ 0 4); [apply within_emit; reflexivity | intros _].
    apply (@within_bind _ _ _ _ 0 4); [apply within_emit; reflexivity | intros _].
    apply (@within_bind _ _ _ _ 0 4).
    { replace 0 with (SPINNER_GRANULARITY cfg * 0) by lia.
      apply within_for_loop. intro i.
      apply (@within_bind _ _ _ _ 0 0); [apply within_emit; reflexivity | intros _].
      apply within_emit; reflexivity. }
    intros _.
    apply (@within_bind _ _ _ _ 4 0); [apply within_captureImage | intros _].
    apply within_emit; reflexivity. }
  intros _.
  apply (@within_bind _ _ _ _ 0 0); [apply within_emit; reflexivity | intros _].
  apply (@within_bind _ _ _ _ 0 0); [apply within_emit; reflexivity | intros _].
  apply (@within_bind _ _ _ _ 0 0); [apply within_emit; reflexivity | intros _].
  apply within_emit; reflexivity.
Qed.
End Bound.

(** X6. Whatever the backend answers and whichever cameras are listed, a
    run sends nothing but capture requests, at most four for each of its
    [1 + (NUM_PHOTOS - 1)] capture steps (the request and its three retries),
    and an untriggered run (the effect on mount) sends none. *)
Theorem run_sends_only_bounded_captures backend cfg cameras trigger :
  count is_send (trace (photo_run backend cfg cameras trigger))
  <= 4 * (1 + (NUM_PHOTOS cfg - 1)) /\
  count is_capture_send (trace (photo_run backend cfg cameras trigger))
  = count is_send (trace (photo_run backend cfg cameras trigger)) /\
  issued (photo_run backend cfg cameras trigger)
  = count is_send (trace (photo_run backend cfg cameras trigger)) /\
  count is_send (trace (photo_run backend cfg cameras 0)) = 0.
Proof.
  destruct (@within_asyncEffect backend cfg cameras trigger 0) as (H1 & H2 & H3).
  split; [|split; [|split]]; [| | |reflexivity];
    unfold photo_run, catch_console, try_catch;
    destruct (asyncEffect backend cfg cameras trigger 0) as [[[a|e] t] n']; unpack;
    rewrite ?CaptureRun.count_app; unfold count in *; simpl; lia.
Qed.

End Requests.

(* ================================================================= *)
(** * web/luum: the favourites *)

Module Favourites.
Import Web Lodash Scenario.

Lemma includes_In l x : includes l x = true <-> In x l.
Proof.
  unfold includes. rewrite existsb_exists. split.
  - intros (y & Hy & E). apply String.eqb_eq in E. subst y. exact Hy.
  - intro H. exists x. split; [exact H | apply String.eqb_refl].
Qed.

Lemma includes_false l x : includes l x = false <-> ~ In x l.
Proof.
  rewrite <- includes_In. destruct (includes l x); split; intro H;
    try reflexivity; try discriminate; try (intro; discriminate).
  exfalso. apply H. reflexivity.
Qed.

Lemma filter_other l x :
  ~ In x l -> filter (fun p => negb (String.eqb p x)) l = l.
Proof.
  induction l as [|y l IH]; intro H; simpl; [reflexivity|].
  destruct (String.eqb_spec y x) as [->|Hne]; simpl.
  - exfalso. apply H. left. reflexivity.
  - rewrite IH; [reflexivity|]. intro Hin. apply H. right. exact Hin.
Qed.

Lemma In_filter_other l x y :
  In y (filter (fun p => negb (String.eqb p x)) l) <-> In y l /\ y <> x.
Proof.
  rewrite filter_In. split; intros [H1 H2]; split; try exact H1.
  - intros ->. rewrite String.eqb_refl in H2. discriminate.
  - apply negb_true_iff. apply String.eqb_neq. exact H2.
Qed.

Lemma includes_iff l l' x :
  (In x l <-> In x l') -> includes l x = includes l' x.
Proof.
  intro H. destruct (includes l' x) eqn:E.
  - apply includes_In. apply H. apply includes_In. exact E.
  - apply includes_false. intro Hin. apply H in Hin.
    apply includes_In in Hin. rewrite E in Hin. discriminate.
Qed.

(** X7. The star button of a setting flips whether its path is a favourite
    and leaves every other path as it was; a favourites list without
    duplicates stays without.  Starring appends the path, un-starring removes
    every occurrence of it: starring and then un-starring gives the list
    back, while un-starring and then starring moves the path to the end of
    the list. *)
Theorem star_button_toggles favorites s :
  isFavorite (toggleFavorite favorites s) s = negb (isFavorite favorites s) /\
  (forall s', path s' <> path s ->
              isFavorite (toggleFavorite favorites s) s' = isFavorite favorites s') /\
  (NoDup favorites -> NoDup (toggleFavorite favorites s)) /\
  (isFavorite favorites s = false ->
   toggleFavorite favorites s = favorites ++ [path s] /\
   toggleFavorite (toggleFavorite favorites s) s = favorites) /\
  (isFavorite favorites s = true ->
   ~ In (path s) (toggleFavorite favorites s) /\
   toggleFavorite (toggleFavorite favorites s) s
   = filter (fun p => negb (String.eqb p (path s))) favorites ++ [path s]).
Proof.
  assert (Hin : forall l, isFavorite l s = true <-> In (path s) l).
  { intro l. apply includes_In. }
  assert (Hout : forall l, isFavorite l s = false <-> ~ In (path s) l).
  { intro l. apply includes_false. }
  assert (Hrem : ~ In (path s) (filter (fun p => negb (String.eqb p (path s))) favorites)).
  { intro H. apply In_filter_other in H as [_ H]. apply H. reflexivity. }
  assert (Hadd : In (path s) (favorites ++ [path s])).
  { apply in_or_app. right. left. reflexivity. }
  split; [|split; [|split; [|split]]].
  - unfold toggleFavorite. destruct (isFavorite favorites s) eqn:E; simpl.
    + apply Hout. exact Hrem.
    + apply Hin. exact Hadd.
  - intros s' Hne. unfold toggleFavorite, isFavorite.
    destruct (includes favorites (path s)); apply includes_iff.
    + rewrite In_filter_other. tauto.
    + rewrite in_app_iff. simpl. split; [|tauto].
      intros [H | [H | []]]; [exact H | symmetry in H; contradiction].
  - intro Hnd. unfold toggleFavorite. destruct (isFavorite favorites s) eqn:E.
    + apply NoDup_filter. exact Hnd.
    + apply Hout in E. apply NoDup_app; [exact Hnd | repeat constructor; intros [] |].
      intros x Hx [<- | []]. contradiction.
  - intro E.
    assert (Ht : toggleFavorite favorites s = favorites ++ [path s])
      by (unfold toggleFavorite; rewrite E; reflexivity).
    split; [exact Ht|]. rewrite Ht.
    unfold toggleFavorite. rewrite (proj2 (Hin _) Hadd).
    rewrite filter_app. simpl. rewrite String.eqb_refl. simpl.
    rewrite app_nil_r. apply filter_other. apply Hout. exact E.
  - intro E.
    assert (Ht : toggleFavorite favorites s
                 = filter (fun p => negb (String.eqb p (path s))) favorites)
      by (unfold toggleFavorite; rewrite E; reflexivity).
    rewrite Ht. split; [exact Hrem|].
    unfold toggleFavorite. rewrite (proj2 (Hout _) Hrem). reflexivity.
Qed.

(** *** Where a new favourite is shown *)

Lemma findIndex_from_found A (p : A -> bool) l :
  forall i,
    findIndex_from p i l = (-1)%Z \/
    exists l1 x r,
      l = l1 ++ x :: r /\ p x = true /\
      findIndex_from p i l = (i + Z.of_nat (List.length l1))%Z.
Proof.
  induction l as [|y l IH]; intro i; simpl; [left; reflexivity|].
  destruct (p y) eqn:E.
  - right. exists [], y, l. repeat split; [exact E | simpl; lia].
  - destruct (IH (i + 1)%Z) as [H | (l1 & x & r & -> & Hx & H)]; [left; exact H|].
    right. exists (y :: l1), x, r. repeat split; [exact Hx|].
    rewrite H. simpl List.length. lia.
Qed.

Lemma last_position A (l1 f : list A) x q r :
  l1 ++ x :: r = f ++ [q] -> List.length l1 = List.length f -> x = q.
Proof.
  revert f. induction l1 as [|a l1 IH]; intros [|b f] E Hlen; simpl in *;
    try discriminate.
  - injection E as E _. exact E.
  - injection E as _ E. injection Hlen as Hlen. exact (IH f E Hlen).
Qed.

Lemma indexOf_appended favorites p q :
  ~ In q favorites ->
  indexOf (favorites ++ [q]) q = Z.of_nat (List.length favorites) /\
  (indexOf (favorites ++ [q]) p <= Z.of_nat (List.length favorites))%Z /\
  (indexOf (favorites ++ [q]) p = Z.of_nat (List.length favorites) -> p = q).
Proof.
  intro Hq. unfold indexOf, findIndex. split; [|split].
  - rewrite Settings.findIndex_from_app; [lia | | apply String.eqb_refl].
    intros z Hz. apply String.eqb_neq. intros ->. contradiction.
  - destruct (findIndex_from_found (String.eqb p) (favorites ++ [q]) 0)
      as [-> | (l1 & x & r & E & _ & ->)]; [lia|].
    assert (Hlen : List.length (l1 ++ x :: r) = List.length (favorites ++ [q]))
      by (rewrite E; reflexivity).
    rewrite !length_app in Hlen. simpl in Hlen. lia.
  - destruct (findIndex_from_found (String.eqb p) (favorites ++ [q]) 0)
      as [-> | (l1 & x & r & E & Hx & ->)]; [lia|].
    intro H. apply String.eqb_eq in Hx. subst x.
    apply (@last_position _ l1 favorites p q r (eq_sym E)). lia.
Qed.

(** X8. A setting that is starred while it is not a favourite moves to the
    top of the list: its path is appended to the favourites, which gives it
    the smallest sort key, so the first setting displayed carries its path,
    ahead of every older favourite. *)
Theorem new_favourite_shown_first favorites settings s :
  In s settings ->
  isFavorite favorites s = false ->
  exists first rest,
    displayed (toggleFavorite favorites s) settings = first :: rest /\
    path first = path s /\
    isFavorite (toggleFavorite favorites s) first = true.
Proof.
  intros Hs Hfav.
  assert (Hnot : ~ In (path s) favorites) by (apply includes_false; exact Hfav).
  assert (Ht : toggleFavorite favorites s = favorites ++ [path s]).
  { unfold toggleFavorite. rewrite Hfav. reflexivity. }
  rewrite Ht.
  pose proof (Settings.displayed_sorted (favorites ++ [path s]) settings) as Hsorted.
  assert (Hperm : Permutation (displayed (favorites ++ [path s]) settings) settings)
    by apply SortBy.sortBy_perm.
  assert (Hin : In s (displayed (favorites ++ [path s]) settings)).
  { apply Permutation_in with (1 := Permutation_sym Hperm). exact Hs. }
  destruct (displayed (favorites ++ [path s]) settings) as [|first rest]; [destruct Hin|].
  exists first, rest. split; [reflexivity|].
  assert (Hpath : path first = path s).
  { destruct Hin as [-> | Hin]; [reflexivity|].
    inversion Hsorted as [|? ? _ Hall]; subst.
    rewrite Forall_forall in Hall. specialize (Hall s Hin).
    apply SortBy.lex_leb_spec in Hall. simpl in Hall.
    destruct (@indexOf_appended favorites (path first) (path s) Hnot) as (Hq & Hle & Heq).
    apply Heq. lia. }
  split; [exact Hpath|].
  unfold isFavorite. rewrite Hpath. apply includes_In.
  apply in_or_app. right. left. reflexivity.
Qed.

Lemma new_favourite_shown_first_witness :
  exists first rest,
    displayed (toggleFavorite [path iso] aperture) [iso; aperture] = first :: rest /\
    path first = path aperture /\
    isFavorite (toggleFavorite [path iso] aperture) first = true.
Proof.
  apply (@new_favourite_shown_first [path iso] [iso; aperture] aperture).
  - right. left. reflexivity.
  - reflexivity.
Defined.

End Favourites.


(* ================================================================= *)
(** * web/luum: choosing a camera *)

Module Selection.
Import Web Scenario.

Lemma In_menu cameras v : In v (menu cameras) <-> v < List.length cameras.
Proof. unfold menu. rewrite in_seq. lia. Qed.

(** X9. The camera select.  Whatever items the user picks in whatever
    order, [listIdx] stays the index of a camera of the list, so a camera is
    always selected; picking an item other than the first selects it; picking
    the first item changes nothing, because its value 0 is falsy in the
    handler, so that once another camera is selected the first one cannot be
    selected again. *)
Theorem first_camera_cannot_be_reselected cameras listIdx choices :
  listIdx < List.length cameras ->
  Forall (fun ch => match ch with Some v => In v (menu cameras) | None => True end)
         choices ->
  fold_left onSelect choices listIdx < List.length cameras /\
  (exists c, selectedCamera cameras (fold_left onSelect choices listIdx) = Some c) /\
  (listIdx <> 0 -> fold_left onSelect choices listIdx <> 0) /\
  (forall v, v <> 0 -> onSelect listIdx (Some v) = v) /\
  onSelect listIdx (Some 0) = listIdx.
Proof.
  intros Hidx Hch.
  assert (Hinv : fold_left onSelect choices listIdx < List.length cameras /\
                 (listIdx <> 0 -> fold_left onSelect choices listIdx <> 0)).
  { revert listIdx Hidx. induction Hch as [|ch choices Hc _ IH]; intros listIdx Hidx.
    - split; [exact Hidx | tauto].
    - simpl. destruct ch as [[|v]|]; simpl.
      + apply IH. exact Hidx.
      + apply In_menu in Hc. destruct (IH (S v) Hc) as [H1 H2].
        split; [exact H1 | intros _; apply H2; discriminate].
      + apply IH. exact Hidx. }
  destruct Hinv as [H1 H2].
  split; [exact H1|]. split; [|split; [exact H2|split]].
  - unfold selectedCamera.
    destruct (nth_error cameras (fold_left onSelect choices listIdx)) as [c|] eqn:E;
      [eauto|].
    apply nth_error_None in E. lia.
  - intros [|v] Hv; [contradiction | reflexivity].
  - reflexivity.
Qed.

Lemma first_camera_cannot_be_reselected_witness :
  fold_left onSelect [Some 1; Some 0; None] 0 < List.length [camera; camera] /\
  (exists c, selectedCamera [camera; camera]
                            (fold_left onSelect [Some 1; Some 0; None] 0) = Some c) /\
  (0 <> 0 -> fold_left onSelect [Some 1; Some 0; None] 0 <> 0) /\
  (forall v, v <> 0 -> onSelect 0 (Some v) = v) /\
  onSelect 0 (Some 0) = 0.
Proof.
  apply (@first_camera_cannot_be_reselected [camera; camera] 0 [Some 1; Some 0; None]).
  - simpl. lia.
  - constructor; [right; left; reflexivity|].
    constructor; [left; reflexivity|].
    constructor; [exact I | constructor].
Defined.

(** With two cameras: after the second is picked, picking the first leaves
    the second selected. *)
Example second_camera_stays_selected :
  fold_left onSelect [Some 1; Some 0] 0 = 1.
Proof. reflexivity. Qed.

End Selection.

(* ================================================================= *)
(** * web/luum: the loading flag of the settings list *)

Module Loading.
Import Web Scenario.

(** X10. The settings list shows its spinner while [loading] is true.  The
    first fetch clears the flag only if it succeeds.  After a change of an
    editable setting the flag is cleared again only if the update was accepted
    (success, or the status 500 the callback tolerates) and the fetch that
    follows succeeded; after every other outcome the list is left on the
    spinner, whatever the flag was before. *)
Theorem spinner_until_refetched backend camera setting newVal triggerRefresh n loading :
  truthy (readonly setting) = false ->
  loading_after
    (trace (change_then_render backend camera setting newVal triggerRefresh n)) loading
  = negb (tolerated (backend n) && succeeds (backend (S n))) /\
  loading_after (trace (fetchSettings backend camera n)) true
  = negb (succeeds (backend n)).
Proof.
  intro Hrw.
  assert (Hfetch : forall k b,
             loading_after (trace (fetchSettings backend camera k)) b
             = if succeeds (backend k) then false else b).
  { intros k b.
    unfold fetchSettings, catch_console, try_catch, bind, Axios.get,
      Axios.request_with, Axios.attempt, succeeds.
    destruct (backend k) as [st d|]; [destruct (Axios.validateStatus st)|];
      reflexivity. }
  split.
  - pose proof (Hfetch (S n) true) as Hf.
    destruct (Settings.fetchSettings_once backend camera (S n)) as (t & Ht & _).
    rewrite Ht in Hf. unfold trace in Hf. simpl in Hf.
    unfold change_then_render, onChange. rewrite Hrw.
    unfold try_catch, bind, emit, Axios.put, Axios.request_with, Axios.attempt, tolerated.
    simpl.
    destruct (backend n) as [st d|].
    + destruct (Axios.validateStatus st) eqn:Hv; simpl.
      * unfold triggerRefresh_after. simpl.
        replace (Nat.eqb (triggerRefresh + 1) triggerRefresh) with false
          by (symmetry; apply Nat.eqb_neq; lia).
        rewrite Ht. unfold trace. simpl. unfold loading_after in *.
        rewrite ?fold_left_app. simpl. rewrite Hf.
        destruct (succeeds (backend (S n))); reflexivity.
      * destruct (st =? 500)%Z eqn:H500; simpl.
        -- unfold triggerRefresh_after. simpl.
           replace (Nat.eqb (triggerRefresh + 1) triggerRefresh) with false
             by (symmetry; apply Nat.eqb_neq; lia).
           rewrite Ht. unfold trace. simpl. unfold loading_after in *.
           rewrite ?fold_left_app. simpl. rewrite Hf.
           destruct (succeeds (backend (S n))); reflexivity.
        -- unfold triggerRefresh_after. simpl.
           rewrite Nat.add_0_r, Nat.eqb_refl. reflexivity.
    + simpl. unfold triggerRefresh_after. simpl.
      rewrite Nat.add_0_r, Nat.eqb_refl. reflexivity.
  - rewrite Hfetch. destruct (succeeds (backend n)); reflexivity.
Qed.

Lemma spinner_until_refetched_witness :
  loading_after
    (trace (change_then_render (always_status 404) camera iso (VStr "400") 0 0)) false
  = negb (tolerated (always_status 404 0) && succeeds (always_status 404 1)) /\
  loading_after (trace (fetchSettings (always_status 404) camera 0)) true
  = negb (succeeds (always_status 404 0)).
Proof.
  apply (@spinner_until_refetched (always_status 404) camera iso (VStr "400") 0 0 false).
  reflexivity.
Defined.

(** An update refused with 404 leaves the list on its spinner; so does an
    accepted update whose re-fetch is lost. *)
Example refused_update_leaves_spinner :
  loading_after
    (trace (change_then_render (always_status 404) camera iso (VStr "400") 0 0)) false
  = true /\
  loading_after
    (trace (change_then_render
              (fun k => match k with O => HttpResponse 200 NoData | S _ => NetworkError end)
              camera iso (VStr "400") 0 0)) false
  = true.
Proof. split; reflexivity. Qed.

End Loading.

(* ================================================================= *)
(** * web-simple: the thumbnails *)

Module Thumbnails.
Import WebSimple Scenario.

Lemma append_assoc (a b c : string) : ((a ++ b) ++ c = a ++ (b ++ c))%string.
Proof. induction a as [|x a IH]; simpl; [reflexivity | rewrite IH; reflexivity]. Qed.

Lemma append_nil_r (a : string) : (a ++ "" = a)%string.
Proof. induction a as [|x a IH]; simpl; [reflexivity | rewrite IH; reflexivity]. Qed.

Lemma In_firstn A (x : A) n l : In x (firstn n l) -> In x l.
Proof.
  intro H. rewrite <- (firstn_skipn n l). apply in_or_app. left. exact H.
Qed.

(** The path [recurseFiles] pairs with a file: the path it was called with,
    extended with the names of the folders down to the file. *)
Lemma recurseFiles_located obj :
  forall path p f,
    In (p, f) (recurseFiles obj path) <->
    mimetype f = "image/jpeg"%string /\
    exists names, located obj names f /\ p = (path ++ path_of names)%string.
Proof.
  induction obj as [f0 | name children IH] using Files.node_ind'; intros path p f.
  - simpl. destruct (String.eqb_spec (mimetype f0) "image/jpeg") as [E|E]; simpl.
    + split.
      * intros [H | []]. injection H as <- <-. split; [exact E|].
        exists []. split; [constructor | symmetry; apply append_nil_r].
      * intros (_ & names & Hl & ->). inversion Hl; subst. left.
        simpl. rewrite append_nil_r. reflexivity.
    + split; [intros [] |].
      intros (Hj & names & Hl & _). inversion Hl; subst. contradiction.
  - simpl. rewrite in_flat_map. rewrite Forall_forall in IH. split.
    + intros (c & Hc & Hin). apply (IH c Hc) in Hin as (Hj & names & Hl & ->).
      split; [exact Hj|]. exists (name :: names). split.
      * econstructor; eassumption.
      * simpl. rewrite !append_assoc. reflexivity.
    + intros (Hj & names & Hl & ->). inversion Hl as [|? ? c names' ? Hc Hl']; subst.
      exists c. split; [exact Hc|]. apply (IH c Hc). split; [exact Hj|].
      exists names'. split; [exact Hl'|]. simpl. rewrite !append_assoc. reflexivity.
Qed.

(** X11. With a camera listed, the screen shows at most three thumbnails.
    Each is the download link, with the port of the first camera, of a file
    of mimetype "image/jpeg" that sits somewhere below a child of the fetched
    root; the path it asks for is the chain of folder names from that child
    down to the file, each preceded by "/", then "/" and the file's name: it
    begins with "/" and never contains the name of the root folder itself.
    Before the hierarchy is fetched there are no thumbnails. *)
Theorem thumbnails_of_latest_jpegs c rest cameraFiles progress total :
  exists preview overlay thumbnails,
    render (Some (c :: rest)) cameraFiles progress total
    = Main preview overlay thumbnails /\
    List.length thumbnails <= 3 /\
    (cameraFiles = None -> thumbnails = []) /\
    forall src,
      In src thumbnails ->
      exists root child names f,
        cameraFiles = Some root /\
        In child (folder_children root) /\
        located child names f /\
        mimetype f = "image/jpeg"%string /\
        src = thumbnail_src (cam_port c) (path_of names, f) /\
        exists tail, (path_of names ++ "/" ++ file_name f)%string = String "/" tail.
Proof.
  eexists _, _, _. split; [reflexivity|]. split; [|split].
  - rewrite length_map. apply Files.firstn_length_le.
  - intros ->. reflexivity.
  - intros src Hsrc. apply in_map_iff in Hsrc as ([p f] & <- & Hin).
    unfold latestFiles in Hin. apply In_firstn in Hin. apply in_rev in Hin.
    destruct cameraFiles as [root|]; [|destruct Hin].
    apply SortBy.sortBy_In in Hin.
    apply in_flat_map in Hin as (child & Hchild & Hin).
    apply recurseFiles_located in Hin as (Hj & names & Hloc & ->).
    exists root, child, names, f. simpl.
    repeat split; try assumption.
    destruct names as [|n names]; simpl; eauto.
Qed.

End Thumbnails.

(* ================================================================= *)
(** * web/luum: what an edit sends *)

Module Controls.
Import Web Scenario.

Lemma renderSetting_type setting e :
  renderSetting setting = Some e ->
  match e with
  | TextField _ _ => type setting = 2%Z
  | Checkbox _ _ => type setting = 4%Z
  | Select _ _ _ => type setting = 5%Z \/ type setting = 6%Z
  | DateTimePicker _ _ => type setting = 8%Z
  | Typography _ => type setting = 3%Z \/ type setting = 7%Z
  end.
Proof.
  unfold renderSetting. generalize (type setting) as z. intro z.
  destruct z as [|p|p]; try discriminate.
  repeat (destruct p as [p|p|]; try discriminate);
    intro He; injection He as <-; auto.
Qed.

Lemma count_zero_In p t e : count p t = 0 -> In e t -> p e = false.
Proof.
  unfold count. induction t as [|x t IH]; intros Hc Hin; [destruct Hin|].
  simpl in Hc. destruct Hin as [-> | Hin].
  - destruct (p e); [discriminate | reflexivity].
  - destruct (p x); [discriminate | apply IH; assumption].
Qed.

(** X12. What reaches the backend when the user acts on the control of a
    setting.  A write is sent only for a setting that is not read-only and an
    event that commits a value: Enter in a text field (type 2), a click on a
    checkbox (type 4, sending 1 or 0), a choice in a select (types 5 and 6), a
    picked date (type 8, in seconds).  The request then carries the port of
    the camera and the setting as fetched with only its value replaced.
    Every other key in a text field, a cleared date and the placeholder types
    send nothing and change nothing. *)
Theorem only_committed_edits_are_sent backend camera setting ev triggerRefresh n :
  (forall r,
      In (Send r) (trace (user_change backend camera setting ev triggerRefresh n)) ->
      req_method r = PUT ->
      truthy (readonly setting) = false /\
      exists v,
        control_change setting ev = Some v /\
        r = mkRequest PUT "/api/setting" [] (Some (cam_port camera, with_value setting v))) /\
  (control_change setting ev = None ->
   user_change backend camera setting ev triggerRefresh n = (Ok tt, [], n)) /\
  (forall key text, key <> "Enter"%string ->
                    control_change setting (KeyPress key text) = None) /\
  control_change setting (Pick None) = None /\
  (forall v,
      control_change setting ev = Some v ->
      (type setting = 2%Z /\ exists text, ev = KeyPress "Enter" text /\ v = VStr text) \/
      (type setting = 4%Z /\ exists b, ev = Check b /\ v = VNum (if b then 1 else 0)) \/
      ((type setting = 5%Z \/ type setting = 6%Z) /\
       exists choice, ev = Choose choice /\ v = VStr choice) \/
      (type setting = 8%Z /\ exists seconds, ev = Pick (Some seconds) /\ v = VNum seconds)).
Proof.
  split; [|split; [|split; [|split]]].
  - intros r Hin Hput. unfold user_change in Hin.
    destruct (control_change setting ev) as [v|]; [|destruct Hin].
    destruct (Settings.fetchSettings_once backend camera (S n)) as (t & Ht & _ & Hnoput & _).
    assert (Hfetch : In (Send r) t -> False).
    { intro H. pose proof (@count_zero_In _ _ _ Hnoput H) as Hp.
      simpl in Hp. rewrite Hput in Hp. discriminate. }
    unfold change_then_render, onChange in Hin.
    destruct (truthy (readonly setting)).
    { unfold ret, triggerRefresh_after in Hin. simpl in Hin.
      rewrite Nat.add_0_r, Nat.eqb_refl in Hin. destruct Hin. }
    split; [reflexivity|]. exists v. split; [reflexivity|].
    unfold try_catch, bind, emit, Axios.put, Axios.request_with, Axios.attempt in Hin.
    simpl in Hin.
    destruct (backend n) as [st d|];
      [destruct (Axios.validateStatus st); [|destruct (st =? 500)%Z]|];
      simpl in Hin; unfold triggerRefresh_after in Hin; simpl in Hin;
      try (replace (Nat.eqb (triggerRefresh + 1) triggerRefresh) with false in Hin
            by (symmetry; apply Nat.eqb_neq; lia));
      try rewrite Nat.add_0_r, Nat.eqb_refl in Hin;
      try rewrite Ht in Hin; unfold trace in Hin; simpl in Hin;
      repeat (destruct Hin as [Hin | Hin];
              [try discriminate; try (injection Hin as <-; reflexivity)|]);
      try (exfalso; apply Hfetch; exact Hin); try destruct Hin.
  - intro Hnone. unfold user_change. rewrite Hnone. reflexivity.
  - intros key text Hkey. unfold control_change.
    destruct (renderSetting setting) as [[]|]; try reflexivity.
    destruct (String.eqb_spec key "Enter"); [contradiction | reflexivity].
  - unfold control_change. destruct (renderSetting setting) as [[]|]; reflexivity.
  - intros v Hv. unfold control_change in Hv.
    destruct (renderSetting setting) as [e|] eqn:He; [|discriminate].
    pose proof (@renderSetting_type _ _ He) as Hty.
    destruct e; destruct ev as [k txt | b | ch | [secs|]]; try discriminate.
    + destruct (String.eqb_spec k "Enter") as [->|]; [|discriminate].
      injection Hv as <-. left. eauto.
    + injection Hv as <-. right. left. eauto.
    + injection Hv as <-. right. right. left. eauto.
    + injection Hv as <-. right. right. right. eauto.
Qed.

(** Ticking the checkbox of an editable setting sends the setting with the
    value 1; typing a letter into a text field sends nothing. *)
Example checkbox_sends_one :
  trace (user_change always_ok camera
           (mkSetting 0 7 "" "Flash" "flash" "/main/flash" 0 4 (VNum 0) None)
           (Check true) 0 0)
  = [ConsoleLog "updating /main/flash to"; SetLoading true;
     Send (mkRequest PUT "/api/setting" []
             (Some ("usb:001,004"%string,
                    mkSetting 0 7 "" "Flash" "flash" "/main/flash" 0 4 (VNum 1) None)));
     Recv (HttpResponse 200 NoData); SetTriggerRefresh;
     Send (mkRequest GET "/api/settings" [("port"%string, "usb:001,004"%string)] None);
     Recv (HttpResponse 200 NoData); SetSettings NoData; SetLoading false] /\
  trace (user_change always_ok camera iso (KeyPress "a" "4") 0 0) = [].
Proof. split; reflexivity. Qed.

End Controls.
